(** * bininps: binary input + pulse counter module (panStamp sketch)

    Shallow embedding of [src/bininps/bininps.cpp]: the sampling pass
    [updateValues], the register updaters [updtBinInputs], [updtCounters]
    and [updtVoltSupply], and the Arduino entry points [setup] and [loop].

    Integer types follow the AVR target of the sketch: [byte]/[uint8_t] is
    8 bits, [int] is 16 bits, [unsigned short] is 16 bits and
    [unsigned long] is 32 bits.  Values are carried as [Z] and every
    narrowing store is written out as a reduction modulo the width. *)

From Stdlib Require Import ZArith Lia Bool.
From stdpp Require Import base list.

Local Open Scope Z_scope.

(** ** Machine arithmetic *)

Definition byte_wrap (x : Z) : Z := x mod 2 ^ 8.
Definition ushort_wrap (x : Z) : Z := x mod 2 ^ 16.
Definition ulong_wrap (x : Z) : Z := x mod 2 ^ 32.

Definition HIGH : Z := 1.

(** Arduino's [bitRead(value, bit)] is [(((value) >> (bit)) & 0x01)]. *)
Definition bitRead (value bit : Z) : Z := Z.land (Z.shiftr value bit) 1.

(** [for (i = 0; i < n; i++) body] over an accumulator. *)
Fixpoint for_loop {A : Type} (n : nat) (body : nat → A → A) (a : A) : A :=
  match n with
  | O => a
  | S m => body m (for_loop m body a)
  end.

(** ** Hardware registers read by the sketch

    One value per register and per pass.  A pass reads every line once, and
    the lines of one port sit on different bits, so any combination of
    levels the twelve reads can return is the levels of some such value. *)

Record hardware := {
  PINB : Z;
  PINC : Z;
  PIND : Z;
  ADCL : Z;
  ADCH : Z
}.

(** ** Global variables of the sketch *)

Record state := {
  pcIRQ : bool;
  stateLowByte : Z;
  stateHighByte : Z;
  lastStateBinary : list Z;
  counter : list Z;
  lastStateCount : list Z;
  dtVoltSupply : list Z;
  dtBinInputs : list Z;
  dtCounters : list Z
}.

Definition set_pcIRQ (b : bool) (s : state) : state :=
  {| pcIRQ := b; stateLowByte := stateLowByte s;
     stateHighByte := stateHighByte s;
     lastStateBinary := lastStateBinary s; counter := counter s;
     lastStateCount := lastStateCount s; dtVoltSupply := dtVoltSupply s;
     dtBinInputs := dtBinInputs s; dtCounters := dtCounters s |}.

Definition set_stateLowByte (v : Z) (s : state) : state :=
  {| pcIRQ := pcIRQ s; stateLowByte := v;
     stateHighByte := stateHighByte s;
     lastStateBinary := lastStateBinary s; counter := counter s;
     lastStateCount := lastStateCount s; dtVoltSupply := dtVoltSupply s;
     dtBinInputs := dtBinInputs s; dtCounters := dtCounters s |}.

Definition set_stateHighByte (v : Z) (s : state) : state :=
  {| pcIRQ := pcIRQ s; stateLowByte := stateLowByte s;
     stateHighByte := v;
     lastStateBinary := lastStateBinary s; counter := counter s;
     lastStateCount := lastStateCount s; dtVoltSupply := dtVoltSupply s;
     dtBinInputs := dtBinInputs s; dtCounters := dtCounters s |}.

Definition set_lastStateBinary (l : list Z) (s : state) : state :=
  {| pcIRQ := pcIRQ s; stateLowByte := stateLowByte s;
     stateHighByte := stateHighByte s;
     lastStateBinary := l; counter := counter s;
     lastStateCount := lastStateCount s; dtVoltSupply := dtVoltSupply s;
     dtBinInputs := dtBinInputs s; dtCounters := dtCounters s |}.

Definition set_counter (l : list Z) (s : state) : state :=
  {| pcIRQ := pcIRQ s; stateLowByte := stateLowByte s;
     stateHighByte := stateHighByte s;
     lastStateBinary := lastStateBinary s; counter := l;
     lastStateCount := lastStateCount s; dtVoltSupply := dtVoltSupply s;
     dtBinInputs := dtBinInputs s; dtCounters := dtCounters s |}.

Definition set_lastStateCount (l : list Z) (s : state) : state :=
  {| pcIRQ := pcIRQ s; stateLowByte := stateLowByte s;
     stateHighByte := stateHighByte s;
     lastStateBinary := lastStateBinary s; counter := counter s;
     lastStateCount := l; dtVoltSupply := dtVoltSupply s;
     dtBinInputs := dtBinInputs s; dtCounters := dtCounters s |}.

Definition set_dtVoltSupply (l : list Z) (s : state) : state :=
  {| pcIRQ := pcIRQ s; stateLowByte := stateLowByte s;
     stateHighByte := stateHighByte s;
     lastStateBinary := lastStateBinary s; counter := counter s;
     lastStateCount := lastStateCount s; dtVoltSupply := l;
     dtBinInputs := dtBinInputs s; dtCounters := dtCounters s |}.

Definition set_dtBinInputs (l : list Z) (s : state) : state :=
  {| pcIRQ := pcIRQ s; stateLowByte := stateLowByte s;
     stateHighByte := stateHighByte s;
     lastStateBinary := lastStateBinary s; counter := counter s;
     lastStateCount := lastStateCount s; dtVoltSupply := dtVoltSupply s;
     dtBinInputs := l; dtCounters := dtCounters s |}.

Definition set_dtCounters (l : list Z) (s : state) : state :=
  {| pcIRQ := pcIRQ s; stateLowByte := stateLowByte s;
     stateHighByte := stateHighByte s;
     lastStateBinary := lastStateBinary s; counter := counter s;
     lastStateCount := lastStateCount s; dtVoltSupply := dtVoltSupply s;
     dtBinInputs := dtBinInputs s; dtCounters := l |}.

(** The initializers of the globals (lines 100-145 of the sketch). *)
Definition init : state :=
  {| pcIRQ := false;
     stateLowByte := 0;
     stateHighByte := 0;
     lastStateBinary := [-1; -1; -1; -1; -1; -1; -1; -1];
     counter := [0; 0; 0; 0];
     lastStateCount := [-1; -1; -1; -1];
     dtVoltSupply := [0; 0];
     dtBinInputs := [0; 0];
     dtCounters := replicate 16 0 |}.

(** Pin tables.  A port pointer [&PINx] is the projection that reads the
    register. *)
Definition binaryPin : list Z := [0; 1; 0; 1; 2; 3; 4; 5].
Definition binaryPort : list (hardware → Z) :=
  [PINB; PINB; PINC; PINC; PINC; PINC; PINC; PINC].
Definition counterPin : list Z := [3; 5; 6; 7].
Definition counterPort : list (hardware → Z) := [PIND; PIND; PIND; PIND].

(** The level read for line [i]: [bitRead] of the port that
    [binaryPort[i]] (or [counterPort[i]]) points to, at bit [binaryPin[i]]
    (or [counterPin[i]]). *)
Definition binaryLevel (hw : hardware) (i : nat) : Z :=
  bitRead (nth i binaryPort PINB hw) (binaryPin !!! i).
Definition counterLevel (hw : hardware) (i : nat) : Z :=
  bitRead (nth i counterPort PIND hw) (counterPin !!! i).

(** ** updateValues *)

(** The sketch's two kinds of lines and the actions one pass performs on
    them, logged in program order. *)
Inductive line :=
| Binary (i : nat)
| Counter (i : nat).

Inductive op :=
| Detect (l : line) (changed : bool)   (* the test [lastState..[i] != state] *)
| Store (l : line) (level : Z)         (* [lastState..[i] = state] *)
| Increment (i : nat).                 (* [counter[i]++] *)

(** Locals of [updateValues] together with the globals and the log. *)
Record frame := {
  st : state;
  res : Z;
  ops : list op
}.

(** The tests [lastStateBinary[i] != state] and [lastStateCount[i] != state]. *)
Definition binaryChanged (s : state) (hw : hardware) (i : nat) : bool :=
  negb (lastStateBinary s !!! i =? binaryLevel hw i).
Definition counterChanged (s : state) (hw : hardware) (i : nat) : bool :=
  negb (lastStateCount s !!! i =? counterLevel hw i).

(** Body of the first loop (lines 183-190). *)
Definition binary_iter (hw : hardware) (i : nat) (f : frame) : frame :=
  let state := binaryLevel hw i in
  let s := set_stateLowByte
             (byte_wrap (Z.lor (stateLowByte (st f))
                               (Z.shiftl state (Z.of_nat i)))) (st f) in
  if binaryChanged s hw i then
    {| st := set_lastStateBinary (<[i := state]> (lastStateBinary s)) s;
       res := 1;
       ops := ops f ++ [Detect (Binary i) true; Store (Binary i) state] |}
  else
    {| st := s; res := res f; ops := ops f ++ [Detect (Binary i) false] |}.

(** Body of the second loop (lines 195-210). *)
Definition counter_iter (hw : hardware) (i : nat) (f : frame) : frame :=
  let state := counterLevel hw i in
  let s := set_stateHighByte
             (byte_wrap (Z.lor (stateHighByte (st f))
                               (Z.shiftl state (Z.of_nat i)))) (st f) in
  if counterChanged s hw i then
    let res1 := if res f =? 0 then 1 else res f in
    let s1 := set_lastStateCount (<[i := state]> (lastStateCount s)) s in
    let log1 := ops f ++ [Detect (Counter i) true; Store (Counter i) state] in
    if state =? HIGH then
      {| st := set_counter
                 (<[i := ulong_wrap (counter s1 !!! i + 1)]> (counter s1)) s1;
         res := 2;
         ops := log1 ++ [Increment i] |}
    else
      {| st := s1; res := res1; ops := log1 |}
  else
    {| st := s; res := res f; ops := ops f ++ [Detect (Counter i) false] |}.

Definition updateValues_run (hw : hardware) (s : state) : frame :=
  let f := {| st := set_stateLowByte 0 s; res := 0; ops := [] |} in
  let f := for_loop (length binaryPin) (binary_iter hw) f in
  let f := {| st := set_stateHighByte 0 (st f); res := res f; ops := ops f |} in
  for_loop (length counterPin) (counter_iter hw) f.

(** The pass as the sketch sees it: new globals and the returned byte. *)
Definition updateValues (hw : hardware) (s : state) : state * Z :=
  let f := updateValues_run hw s in (st f, res f).

(** ** Register updaters (regtable) *)

(** [updtVoltSupply]: [result = ADCL; result |= ADCH << 8;
    result = 1126400L / result;] with [result] an [unsigned short].  [Z.div]
    stands for C division; the sketch does not guard a zero reading. *)
Definition updtVoltSupply (hw : hardware) (s : state) : state :=
  let result := ushort_wrap (ADCL hw) in
  let result := ushort_wrap (Z.lor result (Z.shiftl (ADCH hw) 8)) in
  let result := ushort_wrap (1126400 / result) in
  set_dtVoltSupply
    (<[1%nat := Z.land result 255]>
       (<[0%nat := Z.land (Z.shiftr result 8) 255]> (dtVoltSupply s))) s.

Definition updtBinInputs (s : state) : state :=
  set_dtBinInputs
    (<[1%nat := stateLowByte s]>
       (<[0%nat := stateHighByte s]> (dtBinInputs s))) s.

(** [dtCounters[i*4 + j] = (counter[3-i] >> 8 * (3-j)) & 0xFF]. *)
Definition updtCounters_inner (i j : nat) (s : state) : state :=
  set_dtCounters
    (<[(i * 4 + j)%nat :=
         Z.land (Z.shiftr (counter s !!! (3 - i)%nat)
                          (8 * (3 - Z.of_nat j))) 255]> (dtCounters s)) s.

Definition updtCounters (s : state) : state :=
  for_loop 4 (fun i => for_loop 4 (updtCounters_inner i)) s.

(** ** Registers and their transmission *)

Inductive regId :=
| REGI_PRODUCTCODE
| REGI_TXINTERVAL
| REGI_VOLTSUPPLY
| REGI_BININPUTS
| REGI_COUNTERS.

(** What the sketch does that an observer can see: a sampling pass with the
    byte it returned, and a register transmission with the bytes sent.  The
    two registers owned by the panStamp library carry no payload here. *)
Inductive event :=
| Sampled (r : Z)
| Sent (id : regId) (value : option (list Z)).

Definition updateData (id : regId) (hw : hardware) (s : state) : state :=
  match id with
  | REGI_VOLTSUPPLY => updtVoltSupply hw s
  | REGI_BININPUTS => updtBinInputs s
  | REGI_COUNTERS => updtCounters s
  | _ => s
  end.

Definition regValue (id : regId) (s : state) : option (list Z) :=
  match id with
  | REGI_VOLTSUPPLY => Some (dtVoltSupply s)
  | REGI_BININPUTS => Some (dtBinInputs s)
  | REGI_COUNTERS => Some (dtCounters s)
  | _ => None
  end.

(** Modelled from the spec: [REGISTER::getData] belongs to the panStamp
    library (regtable.h, register.h), which is not part of the sources at
    hand.  The spec's Publisher contract is a fire-and-forget call that
    serializes the current state: here the register's updater callback runs
    and the register's bytes are then transmitted. *)
Definition getData (id : regId) (hw : hardware) (s : state) : state * list event :=
  let s' := updateData id hw s in (s', [Sent id (regValue id s')]).

(** ** setup and loop *)

(** The part of [setup] that transmits and samples (lines 246-268); pin
    direction, radio and LED set-up are left out.  It ends with the pin
    change interrupts enabled. *)
Definition setup (hw : hardware) (s : state) : state * list event :=
  let '(s, t1) := getData REGI_PRODUCTCODE hw s in
  let '(s, t2) := getData REGI_TXINTERVAL hw s in
  let '(s, t3) := getData REGI_VOLTSUPPLY hw s in
  let '(s, r) := updateValues hw s in
  let '(s, t4) := getData REGI_BININPUTS hw s in
  let '(s, t5) := getData REGI_COUNTERS hw s in
  (s, t1 ++ t2 ++ t3 ++ [Sampled r] ++ t4 ++ t5).

(** The pin change interrupt vectors: [pcIRQ = true]. *)
Definition PCINT_vect (s : state) : state := set_pcIRQ true s.

(** One turn of [loop].  [irq] tells whether a pin change interrupt was
    served between the previous turn's [pcEnableInterrupt()] and this turn's
    [pcDisableInterrupt()], that is, while sleeping. *)
Definition loop (irq : bool) (hw : hardware) (s : state) : state * list event :=
  let s := if irq then PCINT_vect s else s in
  if pcIRQ s then
    let '(s, r) := updateValues hw s in
    let '(s, t) :=
      if r =? 2 then
        let '(s, t1) := getData REGI_COUNTERS hw s in
        let '(s, t2) := getData REGI_BININPUTS hw s in
        (s, t1 ++ t2)
      else if r =? 1 then
        getData REGI_BININPUTS hw s
      else (s, [])
    in
    (set_pcIRQ false s, Sampled r :: t)
  else
    let '(s, t1) := getData REGI_COUNTERS hw s in
    let '(s, t2) := getData REGI_BININPUTS hw s in
    (s, t1 ++ t2).

(** ** Specification vocabulary: closed forms, predicates and sample inputs *)

(** The byte a loop has accumulated after [n] turns of
    [acc |= lvl(i) << i]. *)
Definition pack (lvl : nat → Z) (n : nat) : Z :=
  for_loop n (fun i acc => byte_wrap (Z.lor acc (Z.shiftl (lvl i) (Z.of_nat i)))) 0.

(** An array whose first [n] cells have been rewritten by a loop that sets
    cell [i] to [g i]. *)
Definition overlay {A : Type} (g : nat → A) (n : nat) (l : list A) : list A :=
  (g <$> seq 0 n) ++ drop n l.

(** A counter line increments when its level changed and the new level is
    [HIGH] (lines 198 and 205). *)
Definition counted (s : state) (hw : hardware) (i : nat) : bool :=
  counterChanged s hw i && (counterLevel hw i =? HIGH).

Definition counterNext (s : state) (hw : hardware) (i : nat) : Z :=
  if counted s hw i then ulong_wrap (counter s !!! i + 1) else counter s !!! i.

Definition binary_ops (s : state) (hw : hardware) (i : nat) : list op :=
  if binaryChanged s hw i
  then [Detect (Binary i) true; Store (Binary i) (binaryLevel hw i)]
  else [Detect (Binary i) false].

Definition counter_ops (s : state) (hw : hardware) (i : nat) : list op :=
  if counterChanged s hw i then
    Detect (Counter i) true :: Store (Counter i) (counterLevel hw i) ::
    (if counterLevel hw i =? HIGH then [Increment i] else [])
  else [Detect (Counter i) false].

(** The byte returned by a pass, from what happened to the lines. *)
Definition classify (s : state) (hw : hardware) : Z :=
  if existsb (counted s hw) (seq 0 (length counterPin)) then 2
  else if existsb (binaryChanged s hw) (seq 0 (length binaryPin))
          || existsb (counterChanged s hw) (seq 0 (length counterPin)) then 1
  else 0.

(** The arrays have the sizes of their initializers and the counters are
    32-bit values. *)
Record wf (s : state) : Prop := {
  wf_binary : length (lastStateBinary s) = 8%nat;
  wf_count : length (lastStateCount s) = 4%nat;
  wf_counter : length (counter s) = 4%nat;
  wf_range : Forall (fun c => 0 ≤ c < 2 ^ 32) (counter s);
  wf_bin : length (dtBinInputs s) = 2%nat;
  wf_cnt : length (dtCounters s) = 16%nat
}.

(** Successive passes, one per element of [hws]: the frame each one ends
    with. *)
Fixpoint run (hws : list hardware) (s : state) : list frame :=
  match hws with
  | [] => []
  | hw :: rest => let f := updateValues_run hw s in f :: run rest (st f)
  end.

(** How many times a log increments counter [i]. *)
Definition is_increment (i : nat) (o : op) : bool :=
  match o with
  | Increment j => Nat.eqb i j
  | _ => false
  end.

Definition increments (i : nat) (log : list op) : nat :=
  length (List.filter (is_increment i) log).

(** The globals after a pass, as a function of the globals before it and of
    the pins. *)
Definition sampled (hw : hardware) (s : state) : state :=
  {| pcIRQ := pcIRQ s;
     stateLowByte := pack (binaryLevel hw) 8;
     stateHighByte := pack (counterLevel hw) 4;
     lastStateBinary := binaryLevel hw <$> seq 0 8;
     counter := counterNext s hw <$> seq 0 4;
     lastStateCount := counterLevel hw <$> seq 0 4;
     dtVoltSupply := dtVoltSupply s;
     dtBinInputs := dtBinInputs s;
     dtCounters := dtCounters s |}.

(** One counter line on its own: from the stored level [a] and the levels
    read in successive passes, whether each pass sees a change into [HIGH],
    and the values the counter [c] takes. *)
Definition rises (a b : Z) : bool := negb (a =? b) && (b =? HIGH).

Fixpoint line_incs (a : Z) (levels : list Z) : list nat :=
  match levels with
  | [] => []
  | b :: rest => (if rises a b then 1%nat else 0%nat) :: line_incs b rest
  end.

Fixpoint line_counts (a c : Z) (levels : list Z) : list Z :=
  match levels with
  | [] => []
  | b :: rest =>
      let c' := if rises a b then ulong_wrap (c + 1) else c in
      c' :: line_counts b c' rest
  end.

(** [wf] as a test. *)
Definition wfb (s : state) : bool :=
  Nat.eqb (length (lastStateBinary s)) 8 &&
  Nat.eqb (length (lastStateCount s)) 4 &&
  Nat.eqb (length (counter s)) 4 &&
  forallb (λ c, (0 <=? c) && (c <? 2 ^ 32)) (counter s) &&
  Nat.eqb (length (dtBinInputs s)) 2 &&
  Nat.eqb (length (dtCounters s)) 16.

(** What a pass did to a line, read off the globals before ([s]) and after
    ([s']) it. *)
Definition incremented (s s' : state) (i : nat) : Prop :=
  counter s' !!! i ≠ counter s !!! i.
Definition binary_moved (s s' : state) (i : nat) : Prop :=
  lastStateBinary s' !!! i ≠ lastStateBinary s !!! i.
Definition counter_moved (s s' : state) (i : nat) : Prop :=
  lastStateCount s' !!! i ≠ lastStateCount s !!! i.

(** Sample inputs: all pins low with a plausible supply reading, and the
    same with port D replaced. *)
Definition quiet : hardware :=
  {| PINB := 0; PINC := 0; PIND := 0; ADCL := 91; ADCH := 1 |}.
Definition with_PIND (d : Z) (hw : hardware) : hardware :=
  {| PINB := PINB hw; PINC := PINC hw; PIND := d; ADCL := ADCL hw; ADCH := ADCH hw |}.
Definition with_PINB (b : Z) (hw : hardware) : hardware :=
  {| PINB := b; PINC := PINC hw; PIND := PIND hw; ADCL := ADCL hw; ADCH := ADCH hw |}.

(** The globals once [setup] has run with all pins low. *)
Definition idle : state := (setup quiet init).1.

(** Why a turn of [loop] runs: the test [if (pcIRQ)] of line 289. *)
Inductive WakeEvent := TimerExpiry | AsyncInterrupt.

Definition wakeReason (irq : bool) (s : state) : WakeEvent :=
  if pcIRQ (if irq then PCINT_vect s else s) then AsyncInterrupt else TimerExpiry.

(** Reading traces. *)
Definition regId_eqb (a b : regId) : bool :=
  match a, b with
  | REGI_PRODUCTCODE, REGI_PRODUCTCODE
  | REGI_TXINTERVAL, REGI_TXINTERVAL
  | REGI_VOLTSUPPLY, REGI_VOLTSUPPLY
  | REGI_BININPUTS, REGI_BININPUTS
  | REGI_COUNTERS, REGI_COUNTERS => true
  | _, _ => false
  end.

Definition is_sample (e : event) : bool :=
  match e with Sampled _ => true | Sent _ _ => false end.

Definition is_sent (id : regId) (e : event) : bool :=
  match e with Sampled _ => false | Sent id' _ => regId_eqb id id' end.

Definition samples (t : list event) : nat := length (List.filter is_sample t).
Definition sends (id : regId) (t : list event) : nat :=
  length (List.filter (is_sent id) t).

Definition samples_first (t : list event) : bool :=
  match t with
  | Sampled _ :: _ => true
  | _ => false
  end.

(** The four bytes of a 32-bit value, most significant first, and the two
    registers as they derive from the globals. *)
Definition be32 (c : Z) : list Z :=
  [Z.land (Z.shiftr c 24) 255; Z.land (Z.shiftr c 16) 255;
   Z.land (Z.shiftr c 8) 255; Z.land (Z.shiftr c 0) 255].

Definition counter_bytes (s : state) : list Z :=
  be32 (counter s !!! 3%nat) ++ be32 (counter s !!! 2%nat) ++
  be32 (counter s !!! 1%nat) ++ be32 (counter s !!! 0%nat).

Definition binary_bytes (s : state) : list Z :=
  [stateHighByte s; stateLowByte s].

(** A transmission whose payload is what the globals [s] hold. *)
Definition published_from (s : state) (e : event) : Prop :=
  match e with
  | Sent REGI_BININPUTS v => v = Some (binary_bytes s)
  | Sent REGI_COUNTERS v => v = Some (counter_bytes s)
  | _ => False
  end.

(** The byte [updateValues] is documented to return. *)
Definition res_ok (f : frame) : Prop := res f = 0 ∨ res f = 1 ∨ res f = 2.



(** Lines: range of the index, level read, level stored, and what the pass
    logged for the test on the line. *)
Definition valid_line (l : line) : Prop :=
  match l with
  | Binary i => (i < 8)%nat
  | Counter i => (i < 4)%nat
  end.

Definition level (hw : hardware) (l : line) : Z :=
  match l with
  | Binary i => binaryLevel hw i
  | Counter i => counterLevel hw i
  end.

Definition lastLevel (s : state) (l : line) : Z :=
  match l with
  | Binary i => lastStateBinary s !!! i
  | Counter i => lastStateCount s !!! i
  end.

Definition reports (f : frame) (l : line) (b : bool) : Prop :=
  In (Detect l b) (ops f).

(** Orderings of a pass's log.  [detect_before_count]: every test comes
    before every increment.  [guarded]: every increment of a counter comes
    right after the test that found its line changed and the store of
    [HIGH] as its level. *)
Definition detect_before_count (log : list op) : Prop :=
  ∀ k k' l b i,
    log !! k = Some (Detect l b) → log !! k' = Some (Increment i) → (k < k')%nat.

Definition guarded (log : list op) : Prop :=
  ∀ k i, log !! k = Some (Increment i) →
    ∃ k0, k = S (S k0) ∧
          log !! k0 = Some (Detect (Counter i) true) ∧
          log !! S k0 = Some (Store (Counter i) HIGH).

Definition no_increment (o : op) : Prop := ∀ i, o ≠ Increment i.
Definition no_binary_detect (o : op) : Prop := ∀ j b, o ≠ Detect (Binary j) b.

(** The value of a sequence of bytes read most significant first. *)
Definition be_value (l : list Z) : Z := fold_left (λ acc b, acc * 256 + b) l 0.

(** ** Further vocabulary: interrupt masks, runs and invariants *)

(** The pin change interrupt masks that [setup] writes to PCMSK0..2
    (lines 62-64 and 236-238). *)
Definition PCINTMASK0 : Z := 0x03.
Definition PCINTMASK1 : Z := 0x3F.
Definition PCINTMASK2 : Z := 0xE8.

(** The globals after successive passes, one per element of [hws]. *)
Fixpoint iterate {X A : Type} (step : X → A → A) (xs : list X) (a : A) : A :=
  match xs with
  | [] => a
  | x :: rest => iterate step rest (step x a)
  end.

Definition pass (hw : hardware) (s : state) : state := st (updateValues_run hw s).

Definition run_state (hws : list hardware) (s : state) : state :=
  iterate pass hws s.

(** The number of changes into [HIGH] in a sequence of levels that follows
    the level [a]. *)
Definition rising_edges (a : Z) (levels : list Z) : nat :=
  sum_list (line_incs a levels).

(** The globals the sketch is in after [setup] and then one turn of [loop]
    per element of [turns]; each turn comes with whether a pin change
    interrupt was served before it and with the pins it finds. *)
Definition turn (x : bool * hardware) (s : state) : state := (loop x.1 x.2 s).1.

Definition boot (hw0 : hardware) (turns : list (bool * hardware)) : state :=
  iterate turn turns (setup hw0 init).1.

(** Every stored level is a level that was read, not the initial -1. *)
Definition known (s : state) : Prop :=
  Forall (λ v, v = 0 ∨ v = 1) (lastStateBinary s) ∧
  Forall (λ v, v = 0 ∨ v = 1) (lastStateCount s).

(** The packed bytes agree with the stored levels, and the two registers
    agree with the globals they are filled from. *)
Definition synced (s : state) : Prop :=
  stateLowByte s = pack (λ i, lastStateBinary s !!! i) 8 ∧
  stateHighByte s = pack (λ i, lastStateCount s !!! i) 4 ∧
  dtBinInputs s = binary_bytes s ∧
  dtCounters s = counter_bytes s.

(** The state the sketch is in between turns of [loop]. *)
Definition settled (s : state) : Prop := wf s ∧ known s ∧ synced s.
Definition steady (s : state) : Prop := settled s ∧ pcIRQ s = false.

(** The globals after the transmissions that follow a pass which returned
    [r] (the [switch] of lines 291-302). *)
Definition published (r : Z) (s : state) : state :=
  if r =? 2 then updtBinInputs (updtCounters s)
  else if r =? 1 then updtBinInputs s
  else s.

(** The supply reading as [updtVoltSupply] assembles it from the two ADC
    bytes. *)
Definition adc_reading (hw : hardware) : Z := ADCL hw + 256 * ADCH hw.

(** ** Lists rewritten cell by cell *)

Section Overlay.
Context {A : Type} `{!Inhabited A}.
Implicit Types (g : nat → A) (l : list A).

Lemma overlay_length g n l : (n ≤ length l)%nat → length (overlay g n l) = length l.
Proof.
  intros Hn. unfold overlay.
  rewrite length_app, length_fmap, length_seq, length_drop. lia.
Qed.

Lemma overlay_full g n l : length l = n → overlay g n l = g <$> seq 0 n.
Proof. intros <-. unfold overlay. rewrite drop_all. apply app_nil_r. Qed.

Lemma overlay_lookup_at g n l :
  (n < length l)%nat → overlay g n l !!! n = l !!! n.
Proof.
  intros Hn. unfold overlay.
  rewrite lookup_total_app_r by (rewrite length_fmap, length_seq; lia).
  rewrite length_fmap, length_seq, Nat.sub_diag.
  rewrite lookup_total_drop. f_equal. lia.
Qed.

Lemma overlay_S g n l :
  (n < length l)%nat →
  overlay g (S n) l = (g <$> seq 0 n) ++ g n :: drop (S n) l.
Proof.
  intros Hn. unfold overlay.
  rewrite seq_S, fmap_app, <- app_assoc. reflexivity.
Qed.

Lemma overlay_insert g n l :
  (n < length l)%nat → <[n := g n]> (overlay g n l) = overlay g (S n) l.
Proof.
  intros Hn. rewrite overlay_S by done. unfold overlay.
  destruct (lookup_lt_is_Some_2 l n Hn) as [x Hx].
  rewrite (drop_S l x n Hx).
  rewrite insert_app_r_alt by (rewrite length_fmap, length_seq; lia).
  rewrite length_fmap, length_seq, Nat.sub_diag. reflexivity.
Qed.

Lemma overlay_keep g n l :
  (n < length l)%nat → l !!! n = g n → overlay g n l = overlay g (S n) l.
Proof.
  intros Hn Heq. rewrite <- overlay_insert by done.
  symmetry. apply list_insert_id.
  rewrite list_lookup_lookup_total_lt by (rewrite overlay_length; lia).
  rewrite overlay_lookup_at by done. congruence.
Qed.
End Overlay.

(** ** The two loops of [updateValues] in closed form *)

(** Reduce field reads of updated records, and nothing else. *)
Ltac fields :=
  unfold set_pcIRQ, set_stateLowByte, set_stateHighByte, set_lastStateBinary,
    set_counter, set_lastStateCount, set_dtVoltSupply, set_dtBinInputs,
    set_dtCounters in *;
  cbn [pcIRQ stateLowByte stateHighByte lastStateBinary counter lastStateCount
       dtVoltSupply dtBinInputs dtCounters st res ops
       set_pcIRQ set_stateLowByte set_stateHighByte set_lastStateBinary
       set_counter set_lastStateCount set_dtVoltSupply set_dtBinInputs
       set_dtCounters] in *.

Lemma existsb_seq_S (p : nat → bool) n :
  existsb p (seq 0 (S n)) = existsb p (seq 0 n) || p n.
Proof. rewrite seq_S, existsb_app. simpl. now rewrite orb_false_r. Qed.

Lemma flat_map_seq_S {B : Type} (h : nat → list B) n :
  flat_map h (seq 0 (S n)) = flat_map h (seq 0 n) ++ h n.
Proof. rewrite seq_S, flat_map_app. simpl. now rewrite app_nil_r. Qed.

Lemma binaryChanged_ext s s' hw i :
  lastStateBinary s !!! i = lastStateBinary s' !!! i →
  binaryChanged s hw i = binaryChanged s' hw i.
Proof. unfold binaryChanged. now intros ->. Qed.

Lemma counterChanged_ext s s' hw i :
  lastStateCount s !!! i = lastStateCount s' !!! i →
  counterChanged s hw i = counterChanged s' hw i.
Proof. unfold counterChanged. now intros ->. Qed.

Lemma binary_loop hw s n :
  (n ≤ length (lastStateBinary s))%nat →
  for_loop n (binary_iter hw) {| st := set_stateLowByte 0 s; res := 0; ops := [] |} =
  {| st := set_lastStateBinary (overlay (binaryLevel hw) n (lastStateBinary s))
             (set_stateLowByte (pack (binaryLevel hw) n) s);
     res := if existsb (binaryChanged s hw) (seq 0 n) then 1 else 0;
     ops := flat_map (binary_ops s hw) (seq 0 n) |}.
Proof.
  induction n as [|n IH]; intros Hn.
  - reflexivity.
  - cbn [for_loop]. rewrite IH by lia. clear IH.
    unfold binary_iter. fields.
    rewrite (binaryChanged_ext _ s)
      by (fields; now rewrite overlay_lookup_at by lia).
    rewrite existsb_seq_S, flat_map_seq_S.
    assert (Hops : binary_ops s hw n =
              if binaryChanged s hw n
              then [Detect (Binary n) true; Store (Binary n) (binaryLevel hw n)]
              else [Detect (Binary n) false]) by reflexivity.
    rewrite Hops. clear Hops.
    destruct (binaryChanged s hw n) eqn:E.
    + rewrite orb_true_r. rewrite overlay_insert by lia. reflexivity.
    + rewrite orb_false_r.
      rewrite <- overlay_keep; [reflexivity | lia |].
      unfold binaryChanged in E. apply negb_false_iff, Z.eqb_eq in E. exact E.
Qed.

Lemma counter_loop hw s r0 o0 n :
  (n ≤ length (lastStateCount s))%nat →
  (n ≤ length (counter s))%nat →
  for_loop n (counter_iter hw) {| st := set_stateHighByte 0 s; res := r0; ops := o0 |} =
  {| st := set_counter (overlay (counterNext s hw) n (counter s))
             (set_lastStateCount (overlay (counterLevel hw) n (lastStateCount s))
                (set_stateHighByte (pack (counterLevel hw) n) s));
     res := if existsb (counted s hw) (seq 0 n) then 2
            else if existsb (counterChanged s hw) (seq 0 n)
                 then (if r0 =? 0 then 1 else r0)
                 else r0;
     ops := o0 ++ flat_map (counter_ops s hw) (seq 0 n) |}.
Proof.
  induction n as [|n IH]; intros Hn Hc.
  - cbn [for_loop seq flat_map existsb]. now rewrite app_nil_r.
  - cbn [for_loop]. rewrite IH by lia. clear IH.
    unfold counter_iter. fields.
    rewrite (counterChanged_ext _ s)
      by (fields; now rewrite overlay_lookup_at by lia).
    rewrite !existsb_seq_S, flat_map_seq_S, app_assoc.
    assert (Hops : counter_ops s hw n =
              if counterChanged s hw n then
                Detect (Counter n) true :: Store (Counter n) (counterLevel hw n) ::
                (if counterLevel hw n =? HIGH then [Increment n] else [])
              else [Detect (Counter n) false]) by reflexivity.
    rewrite Hops. clear Hops.
    assert (Hnext : counterNext s hw n =
              if counterChanged s hw n && (counterLevel hw n =? HIGH)
              then ulong_wrap (counter s !!! n + 1) else counter s !!! n)
      by reflexivity.
    assert (Hcnt : counted s hw n =
              counterChanged s hw n && (counterLevel hw n =? HIGH))
      by reflexivity.
    rewrite Hcnt. clear Hcnt.
    destruct (counterChanged s hw n) eqn:E; cbn [andb] in *.
    + rewrite orb_true_r.
      rewrite (overlay_insert (counterLevel hw)) by lia.
      destruct (counterLevel hw n =? HIGH) eqn:EH.
      * rewrite orb_true_r. rewrite overlay_lookup_at by lia.
        rewrite <- Hnext, overlay_insert by lia.
        rewrite <- !app_assoc. reflexivity.
      * rewrite orb_false_r.
        rewrite <- (overlay_keep (counterNext s hw)) by (lia || congruence).
        f_equal.
        destruct (existsb (counted s hw) (seq 0 n)); [reflexivity|].
        destruct (existsb (counterChanged s hw) (seq 0 n));
          destruct (r0 =? 0) eqn:E0; try reflexivity.
        now rewrite E0.
    + rewrite !orb_false_r.
      rewrite <- (overlay_keep (counterNext s hw)) by (lia || congruence).
      rewrite <- (overlay_keep (counterLevel hw)); [reflexivity | lia |].
      unfold counterChanged in E. apply negb_false_iff, Z.eqb_eq in E. exact E.
Qed.

(** ** One pass in closed form *)

Lemma updateValues_run_eq hw s :
  wf s →
  updateValues_run hw s =
  {| st := sampled hw s;
     res := classify s hw;
     ops := flat_map (binary_ops s hw) (seq 0 8) ++
            flat_map (counter_ops s hw) (seq 0 4) |}.
Proof.
  intros [Hb Hc Hk _ _ _]. unfold updateValues_run.
  rewrite binary_loop by (rewrite Hb; cbn; lia).
  cbn [st res ops].
  rewrite counter_loop by (fields; rewrite ?Hc, ?Hk; cbn; lia).
  change (length binaryPin) with 8%nat. change (length counterPin) with 4%nat.
  fields.
  rewrite !overlay_full by assumption.
  unfold sampled, classify.
  change (length binaryPin) with 8%nat. change (length counterPin) with 4%nat.
  f_equal.
  destruct (existsb _ (seq 0 4)); [reflexivity|].
  destruct (existsb (binaryChanged s hw) (seq 0 8)); cbn [orb Z.eqb].
  - now destruct (existsb _ (seq 0 4)).
  - reflexivity.
Qed.

Lemma updateValues_eq hw s :
  wf s → updateValues hw s = (sampled hw s, classify s hw).
Proof. intros H. unfold updateValues. now rewrite updateValues_run_eq. Qed.

(** ** Levels, packing and well-formedness *)

Lemma land_1 x : Z.land x 1 = x mod 2.
Proof. change 1 with (Z.ones 1). now rewrite Z.land_ones by lia. Qed.

Lemma bitRead_cases v b : bitRead v b = 0 ∨ bitRead v b = 1.
Proof.
  unfold bitRead. rewrite land_1.
  pose proof (Z.mod_pos_bound (Z.shiftr v b) 2 ltac:(lia)). lia.
Qed.

Lemma binaryLevel_cases hw i : binaryLevel hw i = 0 ∨ binaryLevel hw i = 1.
Proof. apply bitRead_cases. Qed.

Lemma counterLevel_cases hw i : counterLevel hw i = 0 ∨ counterLevel hw i = 1.
Proof. apply bitRead_cases. Qed.

Lemma fmap_seq_lookup {A : Type} `{!Inhabited A} (g : nat → A) n i :
  (i < n)%nat → (g <$> seq 0 n) !!! i = g i.
Proof.
  intros Hi.
  rewrite (list_lookup_total_fmap g (seq 0 n) i) by (rewrite length_seq; lia).
  now rewrite lookup_total_seq_lt by lia.
Qed.

Lemma ulong_wrap_range x : 0 ≤ ulong_wrap x < 2 ^ 32.
Proof. unfold ulong_wrap. apply Z.mod_pos_bound. lia. Qed.

Lemma counter_range s i :
  wf s → (i < 4)%nat → 0 ≤ counter s !!! i < 2 ^ 32.
Proof.
  intros H Hi. pose proof (wf_range s H) as HF.
  rewrite Forall_forall in HF. apply HF.
  apply list_elem_of_lookup. exists i.
  apply list_lookup_lookup_total_lt. rewrite (wf_counter s H). lia.
Qed.

Lemma counterNext_range s hw i :
  wf s → (i < 4)%nat → 0 ≤ counterNext s hw i < 2 ^ 32.
Proof.
  intros H Hi. unfold counterNext.
  destruct (counted s hw i); [apply ulong_wrap_range | now apply counter_range].
Qed.

Lemma sampled_wf hw s : wf s → wf (sampled hw s).
Proof.
  intros H. constructor; cbn [sampled lastStateBinary lastStateCount counter
                               dtBinInputs dtCounters];
    rewrite ?length_fmap, ?length_seq; try reflexivity; try apply H.
  rewrite Forall_forall. intros c Hc.
  apply list_elem_of_fmap in Hc as (i & -> & Hi).
  apply elem_of_seq in Hi. apply counterNext_range; [exact H | lia].
Qed.

Lemma wfb_wf s : wfb s = true → wf s.
Proof.
  unfold wfb. rewrite !andb_true_iff, !Nat.eqb_eq, forallb_forall.
  intros (((((Hb & Hc) & Hk) & Hr) & Hbi) & Hcn).
  constructor; try assumption.
  rewrite Forall_forall. intros c Hin.
  apply list_elem_of_In, Hr in Hin. lia.
Qed.

Lemma init_wf : wf init.
Proof.
  constructor; try reflexivity.
  cbn. repeat constructor; lia.
Qed.

Lemma run_wf hw s : wf s → wf (st (updateValues_run hw s)).
Proof. intros H. rewrite updateValues_run_eq by done. now apply sampled_wf. Qed.

(** ** What one pass does to one counter line *)

Lemma increments_app i l1 l2 :
  increments i (l1 ++ l2) = (increments i l1 + increments i l2)%nat.
Proof. unfold increments. now rewrite List.filter_app, length_app. Qed.

Lemma increments_binary i s hw l :
  increments i (flat_map (binary_ops s hw) l) = 0%nat.
Proof.
  induction l as [|j l IH]; [reflexivity|].
  cbn [flat_map]. rewrite increments_app, IH.
  unfold binary_ops. now destruct (binaryChanged s hw j).
Qed.

Lemma increments_counter_ops i s hw j :
  increments i (counter_ops s hw j) =
  if Nat.eqb i j && counted s hw j then 1%nat else 0%nat.
Proof.
  unfold counter_ops, counted.
  destruct (counterChanged s hw j); cbn [andb];
    [|now rewrite andb_false_r].
  destruct (counterLevel hw j =? HIGH); unfold increments; cbn;
    [|now rewrite andb_false_r].
  rewrite andb_true_r. now destruct (Nat.eqb i j).
Qed.

Lemma increments_counter i s hw n :
  increments i (flat_map (counter_ops s hw) (seq 0 n)) =
  if (i <? n)%nat && counted s hw i then 1%nat else 0%nat.
Proof.
  induction n as [|n IH]; [reflexivity|].
  rewrite flat_map_seq_S, increments_app, IH, increments_counter_ops.
  destruct (Nat.eqb_spec i n) as [->|Hne].
  - replace (n <? n)%nat with false by (symmetry; apply Nat.ltb_ge; lia).
    replace (n <? S n)%nat with true by (symmetry; apply Nat.ltb_lt; lia).
    reflexivity.
  - cbn [andb]. rewrite Nat.add_0_r.
    replace (i <? S n)%nat with (i <? n)%nat; [reflexivity|].
    destruct (Nat.ltb_spec i n), (Nat.ltb_spec i (S n)); (reflexivity || lia).
Qed.

Lemma counter_line_step hw s i :
  wf s → (i < 4)%nat →
  lastStateCount (st (updateValues_run hw s)) !!! i = counterLevel hw i ∧
  counter (st (updateValues_run hw s)) !!! i = counterNext s hw i ∧
  increments i (ops (updateValues_run hw s)) =
    if counted s hw i then 1%nat else 0%nat.
Proof.
  intros H Hi. rewrite updateValues_run_eq by done.
  cbn [st ops sampled lastStateCount counter].
  rewrite !fmap_seq_lookup by lia.
  rewrite increments_app, increments_binary, increments_counter.
  replace (i <? 4)%nat with true by (symmetry; apply Nat.ltb_lt; lia).
  auto.
Qed.

Lemma binary_line_step hw s i :
  wf s → (i < 8)%nat →
  lastStateBinary (st (updateValues_run hw s)) !!! i = binaryLevel hw i.
Proof.
  intros H Hi. rewrite updateValues_run_eq by done.
  cbn [st sampled lastStateBinary]. now rewrite fmap_seq_lookup by lia.
Qed.

Lemma ulong_wrap_succ x : ulong_wrap (ulong_wrap x + 1) = ulong_wrap (x + 1).
Proof. unfold ulong_wrap. now rewrite Zplus_mod_idemp_l. Qed.

Lemma run_line_incs i hws s :
  wf s → (i < 4)%nat →
  (λ f, increments i (ops f)) <$> run hws s =
  line_incs (lastStateCount s !!! i) ((λ hw, counterLevel hw i) <$> hws).
Proof.
  revert s. induction hws as [|hw hws IH]; intros s H Hi; [reflexivity|].
  cbn [run fmap list_fmap line_incs].
  destruct (counter_line_step hw s i H Hi) as (L & C & N).
  rewrite N. fold (@fmap list list_fmap).
  rewrite IH by (apply run_wf || lia; done). now rewrite L.
Qed.

Lemma run_line_counts i hws s :
  wf s → (i < 4)%nat →
  (λ f, counter (st f) !!! i) <$> run hws s =
  line_counts (lastStateCount s !!! i) (counter s !!! i)
    ((λ hw, counterLevel hw i) <$> hws).
Proof.
  revert s. induction hws as [|hw hws IH]; intros s H Hi; [reflexivity|].
  cbn [run fmap list_fmap line_counts].
  destruct (counter_line_step hw s i H Hi) as (L & C & N).
  rewrite C. fold (@fmap list list_fmap).
  rewrite IH by (apply run_wf || lia; done). now rewrite L, C.
Qed.

(** ** A pulse train on one counter line *)

(** C1. For a counter line whose stored level is 0, six successive passes that
    read the levels 0,0,1,1,0,1 on that line increment its counter exactly
    twice, in the third and in the sixth pass (the two 0-to-1 transitions);
    the repeated samples and the 1-to-0 transition increment nothing. *)
Theorem C1_two_increments s i hws :
  wf s → (i < 4)%nat →
  lastStateCount s !!! i = 0 →
  (λ hw, counterLevel hw i) <$> hws = [0; 0; 1; 1; 0; 1] →
  (λ f, increments i (ops f)) <$> run hws s = [0; 0; 1; 0; 0; 1]%nat ∧
  (λ f, counter (st f) !!! i) <$> run hws s =
    [counter s !!! i; counter s !!! i;
     ulong_wrap (counter s !!! i + 1); ulong_wrap (counter s !!! i + 1);
     ulong_wrap (counter s !!! i + 1); ulong_wrap (counter s !!! i + 2)].
Proof.
  intros H Hi H0 Hl.
  rewrite run_line_incs, run_line_counts by done.
  rewrite Hl, H0. split; [reflexivity|].
  cbn [line_counts rises Z.eqb negb andb Pos.eqb HIGH].
  rewrite ulong_wrap_succ.
  now replace (counter s !!! i + 1 + 1) with (counter s !!! i + 2) by lia.
Qed.

(** ** Classification *)

Lemma existsb_seq_true (p : nat → bool) n :
  existsb p (seq 0 n) = true ↔ ∃ i, (i < n)%nat ∧ p i = true.
Proof.
  rewrite existsb_exists. split.
  - intros (i & Hin & Hp). apply in_seq in Hin. exists i. split; [lia | done].
  - intros (i & Hi & Hp). exists i. split; [apply in_seq; lia | done].
Qed.

Lemma existsb_seq_false (p : nat → bool) n :
  existsb p (seq 0 n) = false ↔ ∀ i, (i < n)%nat → p i = false.
Proof.
  split.
  - intros He i Hi. destruct (p i) eqn:Hp; [|reflexivity].
    rewrite <- He. symmetry. apply existsb_seq_true. eauto.
  - intros Hall. destruct (existsb p (seq 0 n)) eqn:He; [|reflexivity].
    apply existsb_seq_true in He as (i & Hi & Hp).
    rewrite Hall in Hp by done. discriminate.
Qed.

Lemma ulong_wrap_succ_neq c : 0 ≤ c < 2 ^ 32 → ulong_wrap (c + 1) ≠ c.
Proof.
  intros Hc. unfold ulong_wrap.
  destruct (Z.eq_dec c (2 ^ 32 - 1)) as [->|Hne].
  - now vm_compute.
  - rewrite Z.mod_small by lia. lia.
Qed.

(** A counter line increments exactly when its counter moved. *)
Lemma counted_incremented hw s i :
  wf s → (i < 4)%nat →
  counted s hw i = true ↔ incremented s (sampled hw s) i.
Proof.
  intros H Hi. unfold incremented. cbn [sampled counter].
  rewrite fmap_seq_lookup by lia. unfold counterNext.
  pose proof (ulong_wrap_succ_neq _ (counter_range s i H Hi)).
  destruct (counted s hw i); split; (done || congruence).
Qed.

Lemma binaryChanged_moved hw s i :
  wf s → (i < 8)%nat →
  binaryChanged s hw i = true ↔ binary_moved s (sampled hw s) i.
Proof.
  intros H Hi. unfold binary_moved, binaryChanged. cbn [sampled lastStateBinary].
  rewrite fmap_seq_lookup by lia.
  rewrite negb_true_iff, Z.eqb_neq. split; congruence.
Qed.

Lemma counterChanged_moved hw s i :
  wf s → (i < 4)%nat →
  counterChanged s hw i = true ↔ counter_moved s (sampled hw s) i.
Proof.
  intros H Hi. unfold counter_moved, counterChanged. cbn [sampled lastStateCount].
  rewrite fmap_seq_lookup by lia.
  rewrite negb_true_iff, Z.eqb_neq. split; congruence.
Qed.

Lemma counted_pins s hw i :
  counted s hw i = true ↔
  counterLevel hw i = HIGH ∧ lastStateCount s !!! i ≠ HIGH.
Proof.
  unfold counted, counterChanged.
  rewrite andb_true_iff, negb_true_iff, Z.eqb_neq, Z.eqb_eq. split.
  - intros [Hne Hh]. split; [exact Hh|]. now rewrite <- Hh.
  - intros [Hh Hne]. split; [|exact Hh]. now rewrite Hh.
Qed.

Lemma binaryChanged_pins s hw i :
  binaryChanged s hw i = true ↔ binaryLevel hw i ≠ lastStateBinary s !!! i.
Proof.
  unfold binaryChanged. rewrite negb_true_iff, Z.eqb_neq.
  split; intros H E; apply H; now symmetry.
Qed.

Lemma counterChanged_pins s hw i :
  counterChanged s hw i = true ↔ counterLevel hw i ≠ lastStateCount s !!! i.
Proof.
  unfold counterChanged. rewrite negb_true_iff, Z.eqb_neq.
  split; intros H E; apply H; now symmetry.
Qed.

(** C2. A counter line increments in a pass exactly when the pins show it
    HIGH while its stored level is not HIGH, and a line's stored level moves
    exactly when the pins show a level other than the stored one.  The byte
    returned by the pass is 2 as soon as one counter line increments in
    this sense, whatever the binary-only lines read; it is 1 when no counter
    line increments but some line reads a level other than its stored
    level; it is 0 when every line reads its stored level. *)
Theorem C2_classification hw s :
  wf s →
  let s' := (updateValues hw s).1 in
  let r := (updateValues hw s).2 in
  (∀ i, (i < 4)%nat →
     incremented s s' i ↔
     counterLevel hw i = HIGH ∧ lastStateCount s !!! i ≠ HIGH) ∧
  (∀ i, (i < 8)%nat →
     binary_moved s s' i ↔ binaryLevel hw i ≠ lastStateBinary s !!! i) ∧
  (∀ i, (i < 4)%nat →
     counter_moved s s' i ↔ counterLevel hw i ≠ lastStateCount s !!! i) ∧
  ((∃ i, (i < 4)%nat ∧
         counterLevel hw i = HIGH ∧ lastStateCount s !!! i ≠ HIGH) →
   r = 2) ∧
  ((∀ i, (i < 4)%nat →
         ¬ (counterLevel hw i = HIGH ∧ lastStateCount s !!! i ≠ HIGH)) →
   (∃ i, (i < 8)%nat ∧ binaryLevel hw i ≠ lastStateBinary s !!! i) ∨
   (∃ i, (i < 4)%nat ∧ counterLevel hw i ≠ lastStateCount s !!! i) →
   r = 1) ∧
  ((∀ i, (i < 8)%nat → binaryLevel hw i = lastStateBinary s !!! i) →
   (∀ i, (i < 4)%nat → counterLevel hw i = lastStateCount s !!! i) →
   r = 0).
Proof.
  intros H. rewrite updateValues_eq by done. cbn [fst snd].
  unfold classify. change (length counterPin) with 4%nat.
  change (length binaryPin) with 8%nat.
  split; [|split; [|split; [|split; [|split]]]].
  - intros i Hi. rewrite <- counted_incremented by done. apply counted_pins.
  - intros i Hi. rewrite <- binaryChanged_moved by done. apply binaryChanged_pins.
  - intros i Hi. rewrite <- counterChanged_moved by done. apply counterChanged_pins.
  - intros (i & Hi & Hpins).
    replace (existsb (counted s hw) (seq 0 4)) with true; [reflexivity|].
    symmetry. apply existsb_seq_true. exists i. split; [exact Hi|].
    now apply counted_pins.
  - intros Hnone Hsome.
    replace (existsb (counted s hw) (seq 0 4)) with false.
    2:{ symmetry. apply existsb_seq_false. intros i Hi.
        destruct (counted s hw i) eqn:E; [|reflexivity].
        exfalso. apply (Hnone i Hi). now apply counted_pins. }
    replace (existsb (binaryChanged s hw) (seq 0 8)
             || existsb (counterChanged s hw) (seq 0 4)) with true; [reflexivity|].
    symmetry. apply orb_true_iff.
    destruct Hsome as [(i & Hi & Hm)|(i & Hi & Hm)].
    + left. apply existsb_seq_true. exists i. split; [done|].
      now apply binaryChanged_pins.
    + right. apply existsb_seq_true. exists i. split; [done|].
      now apply counterChanged_pins.
  - intros Hb Hc.
    assert (Ec : existsb (counterChanged s hw) (seq 0 4) = false).
    { apply existsb_seq_false. intros i Hi.
      destruct (counterChanged s hw i) eqn:E; [|reflexivity].
      exfalso. apply counterChanged_pins in E. apply E, Hc, Hi. }
    assert (Eb : existsb (binaryChanged s hw) (seq 0 8) = false).
    { apply existsb_seq_false. intros i Hi.
      destruct (binaryChanged s hw i) eqn:E; [|reflexivity].
      exfalso. apply binaryChanged_pins in E. apply E, Hb, Hi. }
    assert (Ek : existsb (counted s hw) (seq 0 4) = false).
    { apply existsb_seq_false. intros i Hi.
      destruct (counted s hw i) eqn:E; [|reflexivity].
      exfalso. apply counted_pins in E as [Hh Hne].
      apply Hne. rewrite <- Hh. symmetry. apply Hc, Hi. }
    now rewrite Ek, Eb, Ec.
Qed.

(** ** Registers *)

Lemma updtBinInputs_value s :
  length (dtBinInputs s) = 2%nat →
  dtBinInputs (updtBinInputs s) = binary_bytes s.
Proof.
  intros Hl. unfold updtBinInputs, binary_bytes. fields.
  destruct (dtBinInputs s) as [|a [|b [|]]]; try discriminate Hl. reflexivity.
Qed.

Lemma updtCounters_value s :
  length (dtCounters s) = 16%nat →
  dtCounters (updtCounters s) = counter_bytes s.
Proof.
  intros Hl. unfold updtCounters, counter_bytes, be32.
  destruct s as [irq lo hi lb c lc dv db dc]. cbn [dtCounters] in Hl.
  do 16 (destruct dc as [|? dc]; [discriminate Hl|]).
  destruct dc; [|discriminate Hl].
  cbn [for_loop updtCounters_inner]. fields.
  reflexivity.
Qed.

Lemma updtCounters_globals s :
  let s' := updtCounters s in
  pcIRQ s' = pcIRQ s ∧ stateLowByte s' = stateLowByte s ∧
  stateHighByte s' = stateHighByte s ∧
  lastStateBinary s' = lastStateBinary s ∧ counter s' = counter s ∧
  lastStateCount s' = lastStateCount s ∧ dtBinInputs s' = dtBinInputs s.
Proof.
  unfold updtCounters. cbn [for_loop updtCounters_inner]. fields. tauto.
Qed.

(** ** The returned byte is 0, 1 or 2 *)

Lemma binary_iter_res hw i f : res_ok f → res_ok (binary_iter hw i f).
Proof.
  unfold res_ok, binary_iter. intros Hf.
  destruct (binaryChanged _ hw i); cbn [res]; auto.
Qed.

Lemma counter_iter_res hw i f : res_ok f → res_ok (counter_iter hw i f).
Proof.
  unfold res_ok, counter_iter. intros Hf.
  destruct (counterChanged _ hw i); cbn [res]; [|auto].
  destruct (counterLevel hw i =? HIGH); cbn [res]; [auto|].
  destruct Hf as [-> | [-> | ->]]; cbn [Z.eqb]; auto.
Qed.

Lemma for_loop_res (body : nat → frame → frame) n f :
  (∀ i x, res_ok x → res_ok (body i x)) → res_ok f → res_ok (for_loop n body f).
Proof. intros Hstep Hf. induction n as [|n IH]; cbn [for_loop]; auto. Qed.

Lemma updateValues_run_res hw s : res_ok (updateValues_run hw s).
Proof.
  unfold updateValues_run. cbv zeta.
  assert (HF : res_ok (for_loop (length binaryPin) (binary_iter hw)
                         {| st := set_stateLowByte 0 s; res := 0; ops := [] |})).
  { apply (for_loop_res (binary_iter hw)); [apply binary_iter_res|].
    left. reflexivity. }
  revert HF.
  generalize (for_loop (length binaryPin) (binary_iter hw)
                {| st := set_stateLowByte 0 s; res := 0; ops := [] |}).
  intros F HF.
  apply (for_loop_res (counter_iter hw)); [apply counter_iter_res|].
  exact HF.
Qed.

Lemma updateValues_res hw s :
  (updateValues hw s).2 = 0 ∨ (updateValues hw s).2 = 1 ∨ (updateValues hw s).2 = 2.
Proof. exact (updateValues_run_res hw s). Qed.

(** C3. In a turn of [loop] woken by the timer alone (interrupt flag clear)
    the counters and then the binary states are transmitted, with no
    sampling and whatever a pass would have returned; in a turn woken by a
    pin change interrupt the pass runs and what is transmitted follows the
    byte it returns: nothing for 0, the binary states for 1, the counters
    and then the binary states for 2. *)
Theorem C3_loop_publishing (irq : bool) hw s :
  let s0 := if irq then PCINT_vect s else s in
  let t := (loop irq hw s).2 in
  match wakeReason irq s with
  | TimerExpiry =>
      t = [Sent REGI_COUNTERS (Some (dtCounters (updtCounters s)));
           Sent REGI_BININPUTS
             (Some (dtBinInputs (updtBinInputs (updtCounters s))))]
  | AsyncInterrupt =>
      let s1 := (updateValues hw s0).1 in
      let r := (updateValues hw s0).2 in
      (r = 0 ∧ t = [Sampled 0]) ∨
      (r = 1 ∧
       t = [Sampled 1;
            Sent REGI_BININPUTS (Some (dtBinInputs (updtBinInputs s1)))]) ∨
      (r = 2 ∧
       t = [Sampled 2;
            Sent REGI_COUNTERS (Some (dtCounters (updtCounters s1)));
            Sent REGI_BININPUTS
              (Some (dtBinInputs (updtBinInputs (updtCounters s1))))])
  end.
Proof.
  unfold wakeReason, loop.
  destruct (pcIRQ (if irq then PCINT_vect s else s)) eqn:Eirq.
  - pose proof (updateValues_res hw (if irq then PCINT_vect s else s)) as Hr.
    destruct (updateValues hw (if irq then PCINT_vect s else s)) as [s1 r].
    cbn [fst snd] in *.
    destruct Hr as [-> | [-> | ->]]; cbn [Z.eqb Pos.eqb getData fst snd app];
      auto.
  - destruct irq; [discriminate Eirq|]. reflexivity.
Qed.

(** ** Sampling and publishing in [loop] and [setup] *)

Lemma PCINT_vect_wf s : wf s → wf (PCINT_vect s).
Proof. intros [? ? ? ? ? ?]. constructor; assumption. Qed.

Lemma published_counters s :
  length (dtCounters s) = 16%nat →
  published_from s (Sent REGI_COUNTERS (Some (dtCounters (updtCounters s)))).
Proof. intros Hl. cbn [published_from]. now rewrite updtCounters_value. Qed.

Lemma published_binary s :
  length (dtBinInputs s) = 2%nat →
  published_from s (Sent REGI_BININPUTS (Some (dtBinInputs (updtBinInputs s)))).
Proof. intros Hl. cbn [published_from]. now rewrite updtBinInputs_value. Qed.

Lemma published_binary_after_counters s :
  length (dtBinInputs s) = 2%nat →
  published_from s
    (Sent REGI_BININPUTS (Some (dtBinInputs (updtBinInputs (updtCounters s))))).
Proof.
  intros Hl. cbn [published_from].
  destruct (updtCounters_globals s) as (_ & Hlo & Hhi & _ & _ & _ & Hbi).
  rewrite updtBinInputs_value by congruence.
  unfold binary_bytes. now rewrite Hlo, Hhi.
Qed.

(** C4 (as amended). A turn of [loop] woken by a pin change interrupt starts
    with the sampling pass, and whatever it then transmits is taken from the
    globals that pass has just written, whose packed levels are those read
    from the pins in this turn.  A turn woken by the timer alone does not
    sample: it transmits what the globals already hold and does not depend
    on the pins at all. *)
Theorem C4_wake_sampling (irq : bool) hw s :
  wf s →
  match wakeReason irq s with
  | AsyncInterrupt =>
      let s1 := (updateValues hw (if irq then PCINT_vect s else s)).1 in
      let r := (updateValues hw (if irq then PCINT_vect s else s)).2 in
      ∃ t', (loop irq hw s).2 = Sampled r :: t' ∧
            samples t' = 0%nat ∧
            Forall (published_from s1) t' ∧
            binary_bytes s1 = [pack (counterLevel hw) 4; pack (binaryLevel hw) 8]
  | TimerExpiry =>
      samples (loop irq hw s).2 = 0%nat ∧
      Forall (published_from s) (loop irq hw s).2 ∧
      ∀ hw', loop irq hw' s = loop irq hw s
  end.
Proof.
  intros H. unfold wakeReason, loop.
  destruct (pcIRQ (if irq then PCINT_vect s else s)) eqn:Eirq.
  - assert (H0 : wf (if irq then PCINT_vect s else s))
      by (destruct irq; [now apply PCINT_vect_wf | done]).
    revert H0. generalize (if irq then PCINT_vect s else s). intros s0 H0.
    pose proof (updateValues_res hw s0) as Hr.
    rewrite updateValues_eq in * by done. cbn [fst snd] in *.
    pose proof (sampled_wf hw s0 H0) as H1.
    assert (Hbytes : binary_bytes (sampled hw s0) =
                     [pack (counterLevel hw) 4; pack (binaryLevel hw) 8])
      by reflexivity.
    revert H1 Hbytes. generalize (sampled hw s0). intros s1 H1 Hbytes.
    destruct Hr as [-> | [-> | ->]]; cbn [Z.eqb Pos.eqb getData fst snd app].
    + exists []. repeat split; [constructor | done].
    + eexists. split; [reflexivity|]. split; [reflexivity|]. split; [|done].
      repeat constructor. apply published_binary, H1.
    + eexists. split; [reflexivity|]. split; [reflexivity|]. split; [|done].
      repeat constructor.
      * apply published_counters, H1.
      * apply published_binary_after_counters, H1.
  - destruct irq; [discriminate Eirq|].
    cbn [getData fst snd app updateData regValue].
    split; [reflexivity|]. split; [|reflexivity].
    repeat constructor.
    + apply published_counters, H.
    + apply published_binary_after_counters, H.
Qed.

(** C7. [setup] runs the sampling pass exactly once and then transmits the
    binary states and the counters exactly once each, without looking at
    the byte the pass returned. *)
Theorem C7_bootstrap hw s :
  let s1 := updtVoltSupply hw s in
  let s2 := (updateValues hw s1).1 in
  let r := (updateValues hw s1).2 in
  (setup hw s).2 =
    [Sent REGI_PRODUCTCODE None; Sent REGI_TXINTERVAL None;
     Sent REGI_VOLTSUPPLY (Some (dtVoltSupply s1));
     Sampled r;
     Sent REGI_BININPUTS (Some (dtBinInputs (updtBinInputs s2)));
     Sent REGI_COUNTERS (Some (dtCounters (updtCounters (updtBinInputs s2))))] ∧
  samples (setup hw s).2 = 1%nat ∧
  sends REGI_BININPUTS (setup hw s).2 = 1%nat ∧
  sends REGI_COUNTERS (setup hw s).2 = 1%nat.
Proof.
  unfold setup. cbn [getData updateData regValue].
  generalize (updtVoltSupply hw s). intros s1.
  destruct (updateValues hw s1) as [s2 r]. cbn [fst snd app].
  repeat split.
Qed.

(** ** Counters only count up *)





Lemma updtCounters_counter s : counter (updtCounters s) = counter s.
Proof. reflexivity. Qed.

Lemma updateValues_fst hw s : (updateValues hw s).1 = st (updateValues_run hw s).
Proof. reflexivity. Qed.




(** ** What the log says about the tests *)

Lemma in_binary_ops s hw j l b :
  In (Detect l b) (binary_ops s hw j) ↔ l = Binary j ∧ b = binaryChanged s hw j.
Proof.
  unfold binary_ops. destruct (binaryChanged s hw j); cbn [In]; split.
  - intros [E | [E | []]]; [|discriminate E]. injection E as <- <-. done.
  - intros [-> ->]. now left.
  - intros [E | []]. injection E as <- <-. done.
  - intros [-> ->]. now left.
Qed.

Lemma in_counter_ops s hw j l b :
  In (Detect l b) (counter_ops s hw j) ↔ l = Counter j ∧ b = counterChanged s hw j.
Proof.
  unfold counter_ops. destruct (counterChanged s hw j); cbn [In]; split.
  - intros [E | [E | Hin]]; [|discriminate E|].
    + injection E as <- <-. done.
    + destruct (counterLevel hw j =? HIGH); cbn [In] in Hin; [|done].
      destruct Hin as [E | []]. discriminate E.
  - intros [-> ->]. now left.
  - intros [E | []]. injection E as <- <-. done.
  - intros [-> ->]. now left.
Qed.

Lemma reports_iff hw s l b :
  wf s → valid_line l →
  reports (updateValues_run hw s) l b ↔ b = negb (lastLevel s l =? level hw l).
Proof.
  intros H Hl. unfold reports. rewrite updateValues_run_eq by done. cbn [ops].
  rewrite in_app_iff, !in_flat_map. split.
  - intros [(j & _ & Hin) | (j & _ & Hin)].
    + apply in_binary_ops in Hin as [-> ->]. reflexivity.
    + apply in_counter_ops in Hin as [-> ->]. reflexivity.
  - intros ->. destruct l as [i | i]; cbn [valid_line] in Hl.
    + left. exists i. split; [apply in_seq; lia|]. now apply in_binary_ops.
    + right. exists i. split; [apply in_seq; lia|]. now apply in_counter_ops.
Qed.

Lemma lastLevel_after hw s l :
  wf s → valid_line l → lastLevel (st (updateValues_run hw s)) l = level hw l.
Proof.
  intros H Hl. destruct l as [i | i]; cbn [valid_line lastLevel level] in *.
  - now apply binary_line_step.
  - now apply counter_line_step.
Qed.

(** C6. Presenting the same level on a line in two consecutive passes: the
    first pass reports a change exactly when the stored level differs from
    it, the second pass never does, and the stored level is that level after
    each of them.  A pass that finds the level unchanged reports no change
    and leaves the stored level, and for a counter line the counter, as they
    were. *)
Theorem C6_detection_idempotent hw1 hw2 s l :
  wf s → valid_line l → level hw1 l = level hw2 l →
  (reports (updateValues_run hw1 s) l true ↔ lastLevel s l ≠ level hw1 l) ∧
  (reports (updateValues_run hw1 s) l false ↔ lastLevel s l = level hw1 l) ∧
  reports (updateValues_run hw2 (st (updateValues_run hw1 s))) l false ∧
  ¬ reports (updateValues_run hw2 (st (updateValues_run hw1 s))) l true ∧
  lastLevel (st (updateValues_run hw1 s)) l = level hw1 l ∧
  lastLevel (st (updateValues_run hw2 (st (updateValues_run hw1 s)))) l = level hw1 l ∧
  (lastLevel s l = level hw1 l →
   lastLevel (st (updateValues_run hw1 s)) l = lastLevel s l ∧
   ∀ i, l = Counter i →
        counter (st (updateValues_run hw1 s)) !!! i = counter s !!! i).
Proof.
  intros H Hl Hsame.
  pose proof (run_wf hw1 s H) as H1.
  pose proof (lastLevel_after hw1 s l H Hl) as L1.
  pose proof (lastLevel_after hw2 _ l H1 Hl) as L2.
  rewrite !reports_iff by done.
  rewrite L1, L2, Hsame, Z.eqb_refl. cbn [negb].
  rewrite <- Hsame.
  split; [|split; [|split; [|split; [|split; [|split]]]]]; try done.
  - split.
    + intros E. symmetry in E. now apply negb_true_iff, Z.eqb_neq in E.
    + intros E. symmetry. now apply negb_true_iff, Z.eqb_neq.
  - split.
    + intros E. symmetry in E. now apply negb_false_iff, Z.eqb_eq in E.
    + intros E. symmetry. now apply negb_false_iff, Z.eqb_eq.
  - intros E. split; [congruence|].
    intros i ->. cbn [valid_line lastLevel level] in *.
    destruct (counter_line_step hw1 s i H Hl) as (_ & C & _).
    rewrite C. unfold counterNext, counted, counterChanged.
    now rewrite E, Z.eqb_refl.
Qed.

(** ** Order of the actions within a pass *)

Lemma Forall_flat_map_intro {A B : Type} (P : B → Prop) (h : A → list B) l :
  (∀ a, Forall P (h a)) → Forall P (flat_map h l).
Proof.
  intros Hh. induction l as [|a l IH]; cbn [flat_map]; [constructor|].
  apply Forall_app. split; [apply Hh | exact IH].
Qed.

Lemma binary_ops_no_increment s hw j : Forall no_increment (binary_ops s hw j).
Proof.
  unfold binary_ops.
  destruct (binaryChanged s hw j); repeat constructor; intros i E; discriminate E.
Qed.

Lemma counter_ops_no_binary_detect s hw j :
  Forall no_binary_detect (counter_ops s hw j).
Proof.
  unfold counter_ops.
  destruct (counterChanged s hw j); [destruct (counterLevel hw j =? HIGH)|];
    repeat constructor; intros i b E; discriminate E.
Qed.

Lemma guarded_app l1 l2 : guarded l1 → guarded l2 → guarded (l1 ++ l2).
Proof.
  intros G1 G2 k i Hk. apply lookup_app_Some in Hk as [Hk | [Hlen Hk]].
  - destruct (G1 k i Hk) as (k0 & -> & A & B).
    exists k0. split; [done|]. split; now apply lookup_app_l_Some.
  - destruct (G2 _ i Hk) as (k0 & E & A & B).
    exists (length l1 + k0)%nat. split; [lia|].
    split; rewrite lookup_app_r by lia.
    + now replace (length l1 + k0 - length l1)%nat with k0 by lia.
    + now replace (S (length l1 + k0) - length l1)%nat with (S k0) by lia.
Qed.

Lemma guarded_no_increment l : Forall no_increment l → guarded l.
Proof.
  intros HF k i Hk. exfalso.
  rewrite Forall_lookup in HF. exact (HF k _ Hk i eq_refl).
Qed.

Lemma guarded_counter_ops s hw j : guarded (counter_ops s hw j).
Proof.
  unfold counter_ops. intros k i Hk.
  destruct (counterChanged s hw j).
  - destruct (counterLevel hw j =? HIGH) eqn:EH.
    + apply Z.eqb_eq in EH. rewrite EH in *.
      destruct k as [|[|[|k]]]; cbn in Hk; try discriminate Hk.
      injection Hk as <-. exists 0%nat. repeat split.
    + destruct k as [|[|k]]; cbn in Hk; discriminate Hk.
  - destruct k as [|k]; cbn in Hk; discriminate Hk.
Qed.

Lemma guarded_flat_map {A : Type} (h : A → list op) l :
  (∀ a, guarded (h a)) → guarded (flat_map h l).
Proof.
  intros Hh. induction l as [|a l IH]; cbn [flat_map].
  - intros k i Hk. destruct k; discriminate Hk.
  - apply guarded_app; [apply Hh | exact IH].
Qed.

Lemma increments_pos i l : In (Increment i) l → (0 < increments i l)%nat.
Proof.
  intros Hin. unfold increments.
  assert (Hf : In (Increment i) (List.filter (is_increment i) l)).
  { apply filter_In. split; [exact Hin|]. cbn. apply Nat.eqb_refl. }
  destruct (List.filter (is_increment i) l); [destruct Hf | cbn; lia].
Qed.

(** C8 (as amended). Within one pass the tests on all eight binary-only
    lines are done before any counter is incremented, and every increment
    of a counter comes immediately after the test that found its own line
    changed and after [HIGH] was stored as that line's level, which is the
    level the pass leaves stored.  (The counter lines are handled one after
    the other, so the test of a later counter line follows the increment of
    an earlier one.) *)
Theorem C8_detection_order hw s :
  wf s →
  (∀ k k' j b i,
     ops (updateValues_run hw s) !! k = Some (Detect (Binary j) b) →
     ops (updateValues_run hw s) !! k' = Some (Increment i) →
     (k < k')%nat) ∧
  guarded (ops (updateValues_run hw s)) ∧
  (∀ k i,
     ops (updateValues_run hw s) !! k = Some (Increment i) →
     (i < 4)%nat ∧ lastStateCount (st (updateValues_run hw s)) !!! i = HIGH).
Proof.
  intros H. rewrite updateValues_run_eq by done. cbn [ops st].
  pose proof (Forall_flat_map_intro no_increment (binary_ops s hw) (seq 0 8)
                (binary_ops_no_increment s hw)) as HB.
  pose proof (Forall_flat_map_intro no_binary_detect (counter_ops s hw) (seq 0 4)
                (counter_ops_no_binary_detect s hw)) as HC.
  rewrite Forall_lookup in HB, HC.
  split; [|split].
  - intros k k' j b i Hk Hk'.
    apply lookup_app_Some in Hk as [Hk | [_ Hk]];
      [|exfalso; exact (HC _ _ Hk j b eq_refl)].
    apply lookup_app_Some in Hk' as [Hk' | [Hlen _]];
      [exfalso; exact (HB _ _ Hk' i eq_refl)|].
    apply lookup_lt_Some in Hk. lia.
  - apply guarded_app.
    + apply guarded_no_increment. rewrite Forall_lookup. exact HB.
    + apply guarded_flat_map, guarded_counter_ops.
  - intros k i Hk.
    assert (Hin : In (Increment i)
                    (flat_map (binary_ops s hw) (seq 0 8) ++
                     flat_map (counter_ops s hw) (seq 0 4))).
    { apply list_elem_of_In, list_elem_of_lookup. eauto. }
    apply increments_pos in Hin.
    rewrite increments_app, increments_binary, increments_counter in Hin.
    destruct (Nat.ltb_spec i 4) as [Hi | Hi]; cbn [andb] in Hin; [|lia].
    split; [exact Hi|].
    cbn [sampled lastStateCount]. rewrite fmap_seq_lookup by lia.
    destruct (counted s hw i) eqn:E; [|lia].
    unfold counted in E. apply andb_true_iff in E as [_ E].
    now apply Z.eqb_eq in E.
Qed.

(** ** The first pass *)

Lemma updtVoltSupply_wf hw s : wf s → wf (updtVoltSupply hw s).
Proof. intros [? ? ? ? ? ?]. constructor; assumption. Qed.

Lemma setup_counter hw s :
  counter (setup hw s).1 = counter (updateValues hw (updtVoltSupply hw s)).1.
Proof.
  unfold setup. cbn [getData updateData regValue].
  destruct (updateValues hw (updtVoltSupply hw s)) as [s2 r]. cbn [fst].
  rewrite updtCounters_counter. reflexivity.
Qed.

(** C9. Starting from the initial globals, where every stored level is -1
    and every counter is 0, the first pass takes a counter line that reads
    HIGH as changed and increments its counter: the counter is 1 after the
    pass, and so after [setup], although the line never went from low to
    high. *)
Theorem C9_first_pass_counts hw i :
  (i < 4)%nat → counterLevel hw i = HIGH →
  lastStateCount init !!! i = -1 ∧
  counter init !!! i = 0 ∧
  increments i (ops (updateValues_run hw init)) = 1%nat ∧
  counter (updateValues hw init).1 !!! i = 1 ∧
  counter (setup hw init).1 !!! i = 1.
Proof.
  intros Hi Hhigh.
  assert (Hl : lastStateCount init !!! i = -1)
    by (destruct i as [|[|[|[|]]]]; (reflexivity || lia)).
  assert (Hc : counter init !!! i = 0)
    by (destruct i as [|[|[|[|]]]]; (reflexivity || lia)).
  assert (Hk : ∀ s, lastStateCount s = lastStateCount init →
                    counter s = counter init → counted s hw i = true).
  { intros s E1 E2. unfold counted, counterChanged. now rewrite E1, Hl, Hhigh. }
  split; [exact Hl|]. split; [exact Hc|].
  destruct (counter_line_step hw init i init_wf Hi) as (_ & C & N).
  split; [|split].
  - rewrite N. now rewrite Hk.
  - rewrite updateValues_fst, C. unfold counterNext.
    rewrite Hk, Hc by reflexivity. reflexivity.
  - rewrite setup_counter, updateValues_fst.
    destruct (counter_line_step hw (updtVoltSupply hw init) i
                (updtVoltSupply_wf hw init init_wf) Hi) as (_ & C' & _).
    rewrite C'. unfold counterNext. rewrite Hk by reflexivity.
    change (counter (updtVoltSupply hw init)) with (counter init).
    now rewrite Hc.
Qed.

(** ** Register layout *)

Lemma testbit_1 m : Z.testbit 1 m = (m =? 0).
Proof. destruct m as [|p|p]; reflexivity. Qed.

Lemma testbit_level v m : v = 0 ∨ v = 1 → Z.testbit v m = (m =? 0) && (v =? 1).
Proof.
  intros [-> | ->].
  - rewrite Z.bits_0. now rewrite andb_false_r.
  - rewrite testbit_1. now rewrite andb_true_r.
Qed.

Lemma pack_S lvl n :
  pack lvl (S n) = byte_wrap (Z.lor (pack lvl n) (Z.shiftl (lvl n) (Z.of_nat n))).
Proof. reflexivity. Qed.

Lemma pack_testbit lvl n i :
  (n ≤ 8)%nat → (∀ j, lvl j = 0 ∨ lvl j = 1) →
  Z.testbit (pack lvl n) (Z.of_nat i) = (i <? n)%nat && (lvl i =? 1).
Proof.
  intros Hn Hlvl. induction n as [|n IH].
  - cbn. apply Z.bits_0.
  - rewrite pack_S. unfold byte_wrap.
    destruct (Nat.ltb_spec i 8) as [Hi | Hi].
    + rewrite Z.mod_pow2_bits_low by lia.
      rewrite Z.lor_spec, Z.shiftl_spec by lia.
      rewrite IH by lia. rewrite (testbit_level _ _ (Hlvl n)).
      destruct (Nat.lt_trichotomy i n) as [Hlt | [-> | Hgt]].
      * replace (i <? n)%nat with true by (symmetry; apply Nat.ltb_lt; lia).
        replace (i <? S n)%nat with true by (symmetry; apply Nat.ltb_lt; lia).
        replace (Z.of_nat i - Z.of_nat n =? 0) with false
          by (symmetry; apply Z.eqb_neq; lia).
        cbn [andb]. now rewrite orb_false_r.
      * replace (n <? n)%nat with false by (symmetry; apply Nat.ltb_ge; lia).
        replace (n <? S n)%nat with true by (symmetry; apply Nat.ltb_lt; lia).
        now rewrite Z.sub_diag.
      * replace (i <? n)%nat with false by (symmetry; apply Nat.ltb_ge; lia).
        replace (i <? S n)%nat with false by (symmetry; apply Nat.ltb_ge; lia).
        replace (Z.of_nat i - Z.of_nat n =? 0) with false
          by (symmetry; apply Z.eqb_neq; lia).
        reflexivity.
    + rewrite Z.mod_pow2_bits_high by lia.
      symmetry. apply andb_false_iff. left. apply Nat.ltb_ge. lia.
Qed.

Lemma be32_value c : 0 ≤ c < 2 ^ 32 → be_value (be32 c) = c.
Proof.
  intros Hc. unfold be_value, be32. cbn [fold_left].
  change 255 with (Z.ones 8). rewrite !Z.land_ones, !Z.shiftr_div_pow2 by lia.
  change (2 ^ 0) with 1. change (2 ^ 8) with 256.
  change (2 ^ 16) with 65536. change (2 ^ 24) with 16777216.
  change (2 ^ 32) with 4294967296 in Hc.
  Z.div_mod_to_equations. lia.
Qed.

(** C10. The counter register holds counter [k] in its bytes (3-k)*4 to
    (3-k)*4+3, most significant byte first; the binary input register holds
    in byte 0 the levels of the counter lines (bit [i] for counter line [i])
    and in byte 1 the levels of the binary-only lines (bit [i] for binary
    line [i]), as the last pass read them. *)
Theorem C10_register_layout hw s k i :
  wf s → (k < 4)%nat →
  take 4 (drop ((3 - k) * 4) (dtCounters (updtCounters s))) = be32 (counter s !!! k) ∧
  (∀ j, (j < 4)%nat →
        dtCounters (updtCounters s) !!! ((3 - k) * 4 + j)%nat =
        Z.land (Z.shiftr (counter s !!! k) (8 * (3 - Z.of_nat j))) 255) ∧
  be_value (be32 (counter s !!! k)) = counter s !!! k ∧
  length (dtBinInputs (updtBinInputs (updateValues hw s).1)) = 2%nat ∧
  Z.testbit (dtBinInputs (updtBinInputs (updateValues hw s).1) !!! 0%nat) (Z.of_nat i)
    = (i <? 4)%nat && (counterLevel hw i =? HIGH) ∧
  Z.testbit (dtBinInputs (updtBinInputs (updateValues hw s).1) !!! 1%nat) (Z.of_nat i)
    = (i <? 8)%nat && (binaryLevel hw i =? HIGH).
Proof.
  intros H Hk.
  rewrite updtCounters_value by apply H.
  rewrite updateValues_eq by done. cbn [fst].
  rewrite updtBinInputs_value by apply (sampled_wf hw s H).
  unfold counter_bytes, binary_bytes. cbn [sampled stateHighByte stateLowByte].
  pose proof (counter_range s k H Hk) as Hc. revert Hc.
  destruct k as [|[|[|[|]]]]; try lia;
    generalize (counter s !!! 0%nat), (counter s !!! 1%nat),
               (counter s !!! 2%nat), (counter s !!! 3%nat);
    intros c0 c1 c2 c3 Hc;
    (split; [reflexivity|];
     split; [intros j Hj; destruct j as [|[|[|[|]]]]; (reflexivity || lia)|];
     split; [now apply be32_value|];
     split; [reflexivity|];
     split; cbn [lookup_total list_lookup_total];
       (apply pack_testbit; [lia | apply counterLevel_cases || apply binaryLevel_cases])).
Qed.

(** ** The claims on sample inputs *)

Lemma idle_wf : wf idle.
Proof. apply wfb_wf. vm_compute. reflexivity. Defined.

Lemma C1_two_increments_witness :
  wf idle ∧ (0 < 4)%nat ∧
  lastStateCount idle !!! 0%nat = 0 ∧
  (λ hw, counterLevel hw 0) <$>
    [quiet; quiet; with_PIND 8 quiet; with_PIND 8 quiet; quiet; with_PIND 8 quiet]
    = [0; 0; 1; 1; 0; 1] ∧
  (λ f, increments 0 (ops f)) <$>
    run [quiet; quiet; with_PIND 8 quiet; with_PIND 8 quiet; quiet; with_PIND 8 quiet]
        idle = [0; 0; 1; 0; 0; 1]%nat ∧
  (λ f, counter (st f) !!! 0%nat) <$>
    run [quiet; quiet; with_PIND 8 quiet; with_PIND 8 quiet; quiet; with_PIND 8 quiet]
        idle = [0; 0; 1; 1; 1; 2].
Proof.
  assert (L : lastStateCount idle !!! 0%nat = 0) by (vm_compute; reflexivity).
  assert (V : (λ hw, counterLevel hw 0) <$>
    [quiet; quiet; with_PIND 8 quiet; with_PIND 8 quiet; quiet; with_PIND 8 quiet]
    = [0; 0; 1; 1; 0; 1]) by (vm_compute; reflexivity).
  split; [exact idle_wf|]. split; [lia|]. split; [exact L|]. split; [exact V|].
  exact (C1_two_increments idle 0
           [quiet; quiet; with_PIND 8 quiet; with_PIND 8 quiet; quiet; with_PIND 8 quiet]
           idle_wf ltac:(lia) L V).
Defined.

(** P4 of the specification: counter line 0 goes high while binary line 0
    changes too. *)
Lemma C2_classification_witness :
  wf idle ∧ (updateValues (with_PINB 1 (with_PIND 8 quiet)) idle).2 = 2.
Proof.
  split; [exact idle_wf|].
  destruct (C2_classification (with_PINB 1 (with_PIND 8 quiet)) idle idle_wf)
    as (_ & _ & _ & A & _).
  apply A. exists 0%nat. split; [lia|]. split.
  - vm_compute. reflexivity.
  - vm_compute. discriminate.
Defined.

(** C4 as the specification states it fails: a turn of [loop] woken by the
    timer while binary line 0 has gone high does not sample, and transmits
    the binary states stored before (all low). *)
Lemma C4_timer_wake_does_not_sample :
  wakeReason false idle = TimerExpiry ∧
  lastStateBinary idle !!! 0%nat = 0 ∧
  binaryLevel (with_PINB 1 quiet) 0 = 1 ∧
  (loop false (with_PINB 1 quiet) idle).2 =
    [Sent REGI_COUNTERS (Some (replicate 16 0));
     Sent REGI_BININPUTS (Some [0; 0])] ∧
  samples_first (loop false (with_PINB 1 quiet) idle).2 = false ∧
  ¬ (∀ (irq : bool) hw s, wf s → samples_first (loop irq hw s).2 = true).
Proof.
  do 5 (split; [vm_compute; reflexivity|]).
  intros Hall.
  specialize (Hall false (with_PINB 1 quiet) idle idle_wf).
  vm_compute in Hall. discriminate Hall.
Qed.

Lemma C4_wake_sampling_witness :
  wf idle ∧
  ∃ t', (loop true (with_PINB 1 quiet) idle).2 =
          Sampled (updateValues (with_PINB 1 quiet) (PCINT_vect idle)).2 :: t' ∧
        samples t' = 0%nat ∧
        Forall (published_from (updateValues (with_PINB 1 quiet) (PCINT_vect idle)).1) t' ∧
        binary_bytes (updateValues (with_PINB 1 quiet) (PCINT_vect idle)).1 =
          [pack (counterLevel (with_PINB 1 quiet)) 4;
           pack (binaryLevel (with_PINB 1 quiet)) 8].
Proof.
  split; [exact idle_wf|].
  exact (C4_wake_sampling true (with_PINB 1 quiet) idle idle_wf).
Defined.


Lemma C6_detection_idempotent_witness :
  wf idle ∧ valid_line (Counter 0) ∧
  level (with_PIND 8 quiet) (Counter 0) = level (with_PIND 8 quiet) (Counter 0) ∧
  reports (updateValues_run (with_PIND 8 quiet)
             (st (updateValues_run (with_PIND 8 quiet) idle))) (Counter 0) false ∧
  lastLevel (st (updateValues_run (with_PIND 8 quiet)
                   (st (updateValues_run (with_PIND 8 quiet) idle)))) (Counter 0) = 1.
Proof.
  assert (V : valid_line (Counter 0)) by (cbn; lia).
  split; [exact idle_wf|]. split; [exact V|]. split; [reflexivity|].
  destruct (C6_detection_idempotent (with_PIND 8 quiet) (with_PIND 8 quiet)
              idle (Counter 0) idle_wf V eq_refl)
    as (_ & _ & A & _ & _ & B & _).
  split; [exact A | exact B].
Defined.

(** C8 as the specification states it fails: with counter lines 0 and 1
    both going high, the test of counter line 1 (position 11 of the log)
    comes after the increment of counter 0 (position 10). *)
Lemma C8_test_after_increment :
  ops (updateValues_run (with_PIND 40 quiet) idle) !! 10%nat = Some (Increment 0) ∧
  ops (updateValues_run (with_PIND 40 quiet) idle) !! 11%nat =
    Some (Detect (Counter 1) true) ∧
  ¬ detect_before_count (ops (updateValues_run (with_PIND 40 quiet) idle)).
Proof.
  assert (A : ops (updateValues_run (with_PIND 40 quiet) idle) !! 10%nat =
              Some (Increment 0)) by (vm_compute; reflexivity).
  assert (B : ops (updateValues_run (with_PIND 40 quiet) idle) !! 11%nat =
              Some (Detect (Counter 1) true)) by (vm_compute; reflexivity).
  split; [exact A|]. split; [exact B|].
  intros Hall. specialize (Hall 11%nat 10%nat _ _ _ B A). lia.
Qed.

Lemma C8_detection_order_witness :
  wf idle ∧ guarded (ops (updateValues_run (with_PIND 40 quiet) idle)).
Proof.
  split; [exact idle_wf|].
  exact (proj1 (proj2 (C8_detection_order (with_PIND 40 quiet) idle idle_wf))).
Defined.

Lemma C9_first_pass_counts_witness :
  (0 < 4)%nat ∧ counterLevel (with_PIND 8 quiet) 0 = HIGH ∧
  counter (setup (with_PIND 8 quiet) init).1 !!! 0%nat = 1.
Proof.
  assert (L : counterLevel (with_PIND 8 quiet) 0 = HIGH) by (vm_compute; reflexivity).
  split; [lia|]. split; [exact L|].
  destruct (C9_first_pass_counts (with_PIND 8 quiet) 0 ltac:(lia) L)
    as (_ & _ & _ & _ & A).
  exact A.
Defined.

Lemma C10_register_layout_witness :
  wf (updateValues (with_PIND 8 quiet) idle).1 ∧ (0 < 4)%nat ∧
  take 4 (drop 12 (dtCounters (updtCounters (updateValues (with_PIND 8 quiet) idle).1)))
    = [0; 0; 0; 1].
Proof.
  assert (W : wf (updateValues (with_PIND 8 quiet) idle).1)
    by (apply wfb_wf; vm_compute; reflexivity).
  split; [exact W|]. split; [lia|].
  destruct (C10_register_layout quiet (updateValues (with_PIND 8 quiet) idle).1
              0 0 W ltac:(lia)) as (A & _).
  exact A.
Defined.

(** * Further properties of the sketch *)

(** ** What a pass leaves alone *)

Lemma for_loop_frame (P : frame → Prop) (body : nat → frame → frame) n f :
  (∀ i x, P x → P (body i x)) → P f → P (for_loop n body f).
Proof. intros Hstep Hf. induction n as [|n IH]; cbn [for_loop]; auto. Qed.

Lemma binary_iter_untouched hw i f :
  pcIRQ (st (binary_iter hw i f)) = pcIRQ (st f) ∧
  dtVoltSupply (st (binary_iter hw i f)) = dtVoltSupply (st f) ∧
  dtBinInputs (st (binary_iter hw i f)) = dtBinInputs (st f) ∧
  dtCounters (st (binary_iter hw i f)) = dtCounters (st f) ∧
  counter (st (binary_iter hw i f)) = counter (st f) ∧
  lastStateCount (st (binary_iter hw i f)) = lastStateCount (st f).
Proof.
  unfold binary_iter. generalize (st f). intros s.
  destruct (binaryChanged _ hw i); cbn [st]; repeat split.
Qed.

Lemma counter_iter_untouched hw i f :
  pcIRQ (st (counter_iter hw i f)) = pcIRQ (st f) ∧
  dtVoltSupply (st (counter_iter hw i f)) = dtVoltSupply (st f) ∧
  dtBinInputs (st (counter_iter hw i f)) = dtBinInputs (st f) ∧
  dtCounters (st (counter_iter hw i f)) = dtCounters (st f) ∧
  lastStateBinary (st (counter_iter hw i f)) = lastStateBinary (st f) ∧
  stateLowByte (st (counter_iter hw i f)) = stateLowByte (st f).
Proof.
  unfold counter_iter. generalize (st f). intros s.
  destruct (counterChanged _ hw i); [destruct (counterLevel hw i =? HIGH)|];
    cbn [st]; repeat split.
Qed.

(** X1. A pass writes only the stored levels, the two packed bytes and the
    counters: whatever the globals are, even with arrays of the wrong size,
    it leaves the interrupt flag and the three register arrays as they
    were. *)
Theorem X1_pass_untouched hw s :
  pcIRQ (updateValues hw s).1 = pcIRQ s ∧
  dtVoltSupply (updateValues hw s).1 = dtVoltSupply s ∧
  dtBinInputs (updateValues hw s).1 = dtBinInputs s ∧
  dtCounters (updateValues hw s).1 = dtCounters s.
Proof.
  rewrite updateValues_fst. unfold updateValues_run. cbv zeta.
  set (P := λ f : frame,
         pcIRQ (st f) = pcIRQ s ∧ dtVoltSupply (st f) = dtVoltSupply s ∧
         dtBinInputs (st f) = dtBinInputs s ∧ dtCounters (st f) = dtCounters s).
  assert (HB : P (for_loop (length binaryPin) (binary_iter hw)
                    {| st := set_stateLowByte 0 s; res := 0; ops := [] |})).
  { apply for_loop_frame; [|repeat split].
    intros i x (A & B & C & D).
    destruct (binary_iter_untouched hw i x) as (A' & B' & C' & D' & _).
    unfold P. rewrite A', B', C', D'. auto. }
  revert HB.
  generalize (for_loop (length binaryPin) (binary_iter hw)
                {| st := set_stateLowByte 0 s; res := 0; ops := [] |}).
  intros F HF.
  change (P (for_loop (length counterPin) (counter_iter hw)
               {| st := set_stateHighByte 0 (st F); res := res F; ops := ops F |})).
  apply for_loop_frame.
  - intros i x (A & B & C & D).
    destruct (counter_iter_untouched hw i x) as (A' & B' & C' & D' & _).
    unfold P. rewrite A', B', C', D'. auto.
  - exact HF.
Qed.

(** ** What the returned byte tells *)

Lemma fmap_seq_eq {A : Type} `{!Inhabited A} (g : nat → A) n (l : list A) :
  length l = n → (∀ i, (i < n)%nat → l !!! i = g i) → g <$> seq 0 n = l.
Proof.
  intros Hl Hg. apply (list_eq_same_length _ _ n); [done | |].
  - now rewrite length_fmap, length_seq.
  - intros i x y Hi Hx Hy.
    apply list_lookup_fmap_Some in Hx as (j & -> & Hj).
    apply lookup_seq in Hj as [-> _]. cbn.
    rewrite <- (Hg i Hi). now apply list_lookup_total_correct.
Qed.

Lemma existsb_seq_ext (p q : nat → bool) n :
  (∀ i, (i < n)%nat → p i = q i) → existsb p (seq 0 n) = existsb q (seq 0 n).
Proof.
  intros Hpq. induction n as [|n IH]; [reflexivity|].
  rewrite !existsb_seq_S.
  rewrite IH by (intros i Hi; apply Hpq; lia).
  now rewrite (Hpq n) by lia.
Qed.

Lemma classify_not_2 s hw :
  classify s hw ≠ 2 → ∀ i, (i < 4)%nat → counted s hw i = false.
Proof.
  unfold classify. change (length counterPin) with 4%nat.
  destruct (existsb (counted s hw) (seq 0 4)) eqn:E; [congruence|].
  intros _. now apply existsb_seq_false.
Qed.

Lemma classify_0 s hw :
  classify s hw = 0 →
  (∀ i, (i < 8)%nat → binaryChanged s hw i = false) ∧
  (∀ i, (i < 4)%nat → counterChanged s hw i = false).
Proof.
  unfold classify. change (length counterPin) with 4%nat.
  change (length binaryPin) with 8%nat.
  destruct (existsb (counted s hw) (seq 0 4)); [discriminate|].
  destruct (existsb (binaryChanged s hw) (seq 0 8)) eqn:Eb; [discriminate|].
  destruct (existsb (counterChanged s hw) (seq 0 4)) eqn:Ec; [discriminate|].
  intros _. split; now apply existsb_seq_false.
Qed.

Lemma counters_kept s hw :
  wf s → (∀ i, (i < 4)%nat → counted s hw i = false) →
  counter (sampled hw s) = counter s.
Proof.
  intros H Hno. cbn [sampled counter].
  apply fmap_seq_eq; [apply H|].
  intros i Hi. unfold counterNext. now rewrite Hno.
Qed.

Lemma levels_kept s hw :
  wf s →
  (∀ i, (i < 8)%nat → binaryChanged s hw i = false) →
  (∀ i, (i < 4)%nat → counterChanged s hw i = false) →
  lastStateBinary (sampled hw s) = lastStateBinary s ∧
  lastStateCount (sampled hw s) = lastStateCount s.
Proof.
  intros H Hb Hc. cbn [sampled lastStateBinary lastStateCount]. split.
  - apply fmap_seq_eq; [apply H|]. intros i Hi.
    specialize (Hb i Hi). unfold binaryChanged in Hb.
    now apply negb_false_iff, Z.eqb_eq in Hb.
  - apply fmap_seq_eq; [apply H|]. intros i Hi.
    specialize (Hc i Hi). unfold counterChanged in Hc.
    now apply negb_false_iff, Z.eqb_eq in Hc.
Qed.

Lemma counterChanged_counted s hw i :
  counterChanged s hw i = false → counted s hw i = false.
Proof. unfold counted. now intros ->. Qed.

(** X2. The byte a pass returns can be relied on to skip transmissions: when
    it is not 2 the whole counter array is as before the pass, and when it
    is 0 the stored levels of all twelve lines and the counters are as
    before. *)
Theorem X2_return_byte_sound hw s :
  wf s →
  ((updateValues hw s).2 ≠ 2 → counter (updateValues hw s).1 = counter s) ∧
  ((updateValues hw s).2 = 0 →
   lastStateBinary (updateValues hw s).1 = lastStateBinary s ∧
   lastStateCount (updateValues hw s).1 = lastStateCount s ∧
   counter (updateValues hw s).1 = counter s).
Proof.
  intros H. rewrite updateValues_eq by done. cbn [fst snd]. split.
  - intros Hr. apply counters_kept; [done|]. now apply classify_not_2.
  - intros Hr. destruct (classify_0 s hw Hr) as [Hb Hc].
    destruct (levels_kept s hw H Hb Hc) as [Eb Ec].
    split; [exact Eb|]. split; [exact Ec|].
    apply counters_kept; [done|].
    intros i Hi. apply counterChanged_counted, Hc, Hi.
Qed.

(** X3. Sampling the same pins twice in a row: the second pass returns 0 and
    leaves every global exactly as the first pass left it. *)
Theorem X3_pass_idempotent hw s :
  wf s →
  updateValues hw (updateValues hw s).1 = ((updateValues hw s).1, 0).
Proof.
  intros H. rewrite (updateValues_eq hw s) by done. cbn [fst].
  pose proof (sampled_wf hw s H) as H1.
  rewrite updateValues_eq by done.
  assert (Hb : ∀ i, (i < 8)%nat → binaryChanged (sampled hw s) hw i = false).
  { intros i Hi. unfold binaryChanged. cbn [sampled lastStateBinary].
    now rewrite fmap_seq_lookup, Z.eqb_refl by lia. }
  assert (Hc : ∀ i, (i < 4)%nat → counterChanged (sampled hw s) hw i = false).
  { intros i Hi. unfold counterChanged. cbn [sampled lastStateCount].
    now rewrite fmap_seq_lookup, Z.eqb_refl by lia. }
  assert (Hk : ∀ i, (i < 4)%nat → counted (sampled hw s) hw i = false).
  { intros i Hi. apply counterChanged_counted, Hc, Hi. }
  f_equal.
  - pose proof (counters_kept (sampled hw s) hw H1 Hk) as Ek.
    cbn [sampled counter] in Ek. unfold sampled in *.
    cbn [pcIRQ dtVoltSupply dtBinInputs dtCounters]. now rewrite Ek.
  - unfold classify. change (length counterPin) with 4%nat.
    change (length binaryPin) with 8%nat.
    replace (existsb (counted (sampled hw s) hw) (seq 0 4)) with false
      by (symmetry; now apply existsb_seq_false).
    replace (existsb (binaryChanged (sampled hw s) hw) (seq 0 8)) with false
      by (symmetry; now apply existsb_seq_false).
    replace (existsb (counterChanged (sampled hw s) hw) (seq 0 4)) with false
      by (symmetry; now apply existsb_seq_false).
    reflexivity.
Qed.

(** ** The first pass and long runs *)

Lemma init_binary_changed hw i : (i < 8)%nat → binaryChanged init hw i = true.
Proof.
  intros Hi. unfold binaryChanged.
  assert (E : lastStateBinary init !!! i = -1)
    by (destruct i as [|[|[|[|[|[|[|[|]]]]]]]]; (reflexivity || lia)).
  rewrite E. destruct (binaryLevel_cases hw i) as [-> | ->]; reflexivity.
Qed.

Lemma init_counter_changed hw i : (i < 4)%nat → counterChanged init hw i = true.
Proof.
  intros Hi. unfold counterChanged.
  assert (E : lastStateCount init !!! i = -1)
    by (destruct i as [|[|[|[|]]]]; (reflexivity || lia)).
  rewrite E. destruct (counterLevel_cases hw i) as [-> | ->]; reflexivity.
Qed.

(** X4. The first pass after power-up never returns 0: every line leaves
    the initial -1, so the pass returns 2 when some counter line reads HIGH
    and 1 when all four read LOW. *)
Theorem X4_first_pass_return hw :
  (updateValues hw init).2 =
  if existsb (λ i, counterLevel hw i =? HIGH) (seq 0 4) then 2 else 1.
Proof.
  rewrite updateValues_eq by apply init_wf. cbn [snd]. unfold classify.
  change (length counterPin) with 4%nat. change (length binaryPin) with 8%nat.
  rewrite (existsb_seq_ext (counted init hw) (λ i, counterLevel hw i =? HIGH)).
  2:{ intros i Hi. unfold counted. now rewrite init_counter_changed. }
  replace (existsb (binaryChanged init hw) (seq 0 8)) with true.
  2:{ symmetry. apply existsb_seq_true. exists 0%nat.
      split; [lia | apply init_binary_changed; lia]. }
  reflexivity.
Qed.

Lemma iterate_cons {X A : Type} (step : X → A → A) x xs a :
  iterate step (x :: xs) a = iterate step xs (step x a).
Proof. reflexivity. Qed.

Lemma run_state_cons hw hws s :
  run_state (hw :: hws) s = run_state hws (st (updateValues_run hw s)).
Proof. unfold run_state. rewrite iterate_cons. reflexivity. Qed.

Lemma ulong_wrap_add_l x y : ulong_wrap (ulong_wrap x + y) = ulong_wrap (x + y).
Proof. unfold ulong_wrap. now rewrite Zplus_mod_idemp_l. Qed.

(** X5. After any run of passes a counter holds its starting value plus the
    number of changes into HIGH in the levels read on its own line, modulo
    2^32; the levels of the other eleven lines play no part. *)
Theorem X5_counter_total i hws s :
  wf s → (i < 4)%nat →
  counter (run_state hws s) !!! i =
  ulong_wrap (counter s !!! i +
              Z.of_nat (rising_edges (lastStateCount s !!! i)
                          ((λ hw, counterLevel hw i) <$> hws))).
Proof.
  revert s. induction hws as [|hw hws IH]; intros s H Hi.
  - unfold run_state. cbn [iterate fmap list_fmap rising_edges line_incs].
    change (Z.of_nat (sum_list [])) with 0. rewrite Z.add_0_r.
    unfold ulong_wrap. symmetry. apply Z.mod_small. now apply counter_range.
  - rewrite run_state_cons, IH by (apply run_wf || lia; done).
    destruct (counter_line_step hw s i H Hi) as (L & C & _).
    rewrite L, C. cbn [fmap list_fmap]. fold (@fmap list list_fmap).
    unfold rising_edges. cbn [line_incs].
    change (sum_list (?x :: ?l)) with (x + sum_list l)%nat.
    unfold counterNext.
    change (counted s hw i) with (rises (lastStateCount s !!! i) (counterLevel hw i)).
    destruct (rises (lastStateCount s !!! i) (counterLevel hw i)).
    + rewrite ulong_wrap_add_l. f_equal. lia.
    + f_equal.
Qed.

(** ** The pins that matter *)

Lemma bitRead_testbit v b : 0 ≤ b → bitRead v b = Z.b2z (Z.testbit v b).
Proof.
  intros Hb. unfold bitRead. rewrite land_1.
  rewrite <- Z.bit0_mod, Z.shiftr_spec by lia. now rewrite Z.add_0_l.
Qed.

Lemma bitRead_masked v m b :
  0 ≤ b → Z.testbit m b = true → bitRead (Z.land v m) b = bitRead v b.
Proof.
  intros Hb Hm. rewrite !bitRead_testbit by done.
  now rewrite Z.land_spec, Hm, andb_true_r.
Qed.

Lemma bitRead_bit v v' b :
  0 ≤ b → bitRead v b = bitRead v' b → Z.testbit v b = Z.testbit v' b.
Proof.
  intros Hb. rewrite !bitRead_testbit by done. apply Z.b2z_inj.
Qed.

Lemma masked_levels v v' m b :
  0 ≤ b → Z.testbit m b = true →
  Z.land v m = Z.land v' m → bitRead v b = bitRead v' b.
Proof.
  intros Hb Hm E.
  rewrite <- (bitRead_masked v m b), <- (bitRead_masked v' m b) by done.
  now rewrite E.
Qed.

Lemma byte_index n : 0 ≤ n →
  n = 0 ∨ n = 1 ∨ n = 2 ∨ n = 3 ∨ n = 4 ∨ n = 5 ∨ n = 6 ∨ n = 7 ∨ 8 ≤ n.
Proof. lia. Qed.

Lemma testbit_byte_high m n : 0 ≤ m < 256 → 8 ≤ n → Z.testbit m n = false.
Proof.
  intros Hm Hn. destruct (Z.eq_dec m 0) as [-> | Hne]; [apply Z.bits_0|].
  apply Z.bits_above_log2; [lia|].
  assert (Z.log2 m < 8) by (apply Z.log2_lt_pow2; lia). lia.
Qed.

(** Evaluate the bits of the three masks in the goal. *)
Ltac mask_bits :=
  repeat match goal with
  | |- context [Z.testbit PCINTMASK0 ?k] =>
      first [ rewrite (testbit_byte_high PCINTMASK0 k)
                by (done || (vm_compute; split; discriminate))
            | let b := eval vm_compute in (Z.testbit PCINTMASK0 k) in
              change (Z.testbit PCINTMASK0 k) with b ]
  | |- context [Z.testbit PCINTMASK1 ?k] =>
      first [ rewrite (testbit_byte_high PCINTMASK1 k)
                by (done || (vm_compute; split; discriminate))
            | let b := eval vm_compute in (Z.testbit PCINTMASK1 k) in
              change (Z.testbit PCINTMASK1 k) with b ]
  | |- context [Z.testbit PCINTMASK2 ?k] =>
      first [ rewrite (testbit_byte_high PCINTMASK2 k)
                by (done || (vm_compute; split; discriminate))
            | let b := eval vm_compute in (Z.testbit PCINTMASK2 k) in
              change (Z.testbit PCINTMASK2 k) with b ]
  end.

Lemma masked_same_levels hw hw' :
  Z.land (PINB hw) PCINTMASK0 = Z.land (PINB hw') PCINTMASK0 →
  Z.land (PINC hw) PCINTMASK1 = Z.land (PINC hw') PCINTMASK1 →
  Z.land (PIND hw) PCINTMASK2 = Z.land (PIND hw') PCINTMASK2 →
  (∀ i, (i < 8)%nat → binaryLevel hw i = binaryLevel hw' i) ∧
  (∀ i, (i < 4)%nat → counterLevel hw i = counterLevel hw' i).
Proof.
  intros EB EC ED. split.
  + intros i Hi.
    destruct i as [|[|[|[|[|[|[|[|]]]]]]]]; try lia;
      unfold binaryLevel;
      cbn [nth binaryPort binaryPin lookup_total list_lookup_total];
      (apply (masked_levels _ _ PCINTMASK0); [lia | reflexivity | exact EB]) ||
      (apply (masked_levels _ _ PCINTMASK1); [lia | reflexivity | exact EC]).
  + intros i Hi.
    destruct i as [|[|[|[|]]]]; try lia;
      unfold counterLevel;
      cbn [nth counterPort counterPin lookup_total list_lookup_total];
      (apply (masked_levels _ _ PCINTMASK2); [lia | reflexivity | exact ED]).
Qed.

(** X6. Two settings of the pins give the same level on each of the twelve
    lines exactly when they agree on the bits selected by the three pin
    change interrupt masks: the lines the pass samples are the pins that
    are armed to wake the processor, no more and no fewer. *)
Theorem X6_masks_cover_lines hw hw' :
  (Z.land (PINB hw) PCINTMASK0 = Z.land (PINB hw') PCINTMASK0 ∧
   Z.land (PINC hw) PCINTMASK1 = Z.land (PINC hw') PCINTMASK1 ∧
   Z.land (PIND hw) PCINTMASK2 = Z.land (PIND hw') PCINTMASK2) ↔
  ((∀ i, (i < 8)%nat → binaryLevel hw i = binaryLevel hw' i) ∧
   (∀ i, (i < 4)%nat → counterLevel hw i = counterLevel hw' i)).
Proof.
  split.
  - intros (EB & EC & ED). now apply masked_same_levels.
  - intros [HB HC].
    pose proof (bitRead_bit _ _ 0 ltac:(lia) (HB 0%nat ltac:(lia))) as B0.
    pose proof (bitRead_bit _ _ 1 ltac:(lia) (HB 1%nat ltac:(lia))) as B1.
    pose proof (bitRead_bit _ _ 0 ltac:(lia) (HB 2%nat ltac:(lia))) as C0.
    pose proof (bitRead_bit _ _ 1 ltac:(lia) (HB 3%nat ltac:(lia))) as C1.
    pose proof (bitRead_bit _ _ 2 ltac:(lia) (HB 4%nat ltac:(lia))) as C2.
    pose proof (bitRead_bit _ _ 3 ltac:(lia) (HB 5%nat ltac:(lia))) as C3.
    pose proof (bitRead_bit _ _ 4 ltac:(lia) (HB 6%nat ltac:(lia))) as C4.
    pose proof (bitRead_bit _ _ 5 ltac:(lia) (HB 7%nat ltac:(lia))) as C5.
    pose proof (bitRead_bit _ _ 3 ltac:(lia) (HC 0%nat ltac:(lia))) as D3.
    pose proof (bitRead_bit _ _ 5 ltac:(lia) (HC 1%nat ltac:(lia))) as D5.
    pose proof (bitRead_bit _ _ 6 ltac:(lia) (HC 2%nat ltac:(lia))) as D6.
    pose proof (bitRead_bit _ _ 7 ltac:(lia) (HC 3%nat ltac:(lia))) as D7.
    cbn [nth binaryPort counterPort] in *.
    split; [|split]; apply Z.bits_inj'; intros n Hn; rewrite !Z.land_spec;
      destruct (byte_index n Hn)
        as [-> | [-> | [-> | [-> | [-> | [-> | [-> | [-> | Hhi]]]]]]]];
      mask_bits; rewrite ?andb_true_r, ?andb_false_r;
      (reflexivity || assumption).
Qed.

Lemma for_loop_ext {A : Type} (body body' : nat → A → A) n a :
  (∀ i x, (i < n)%nat → body i x = body' i x) →
  for_loop n body a = for_loop n body' a.
Proof.
  intros H. induction n as [|n IH]; cbn [for_loop]; [reflexivity|].
  rewrite IH by (intros; apply H; lia). apply H. lia.
Qed.

Lemma binary_iter_ext hw hw' i f :
  binaryLevel hw i = binaryLevel hw' i → binary_iter hw i f = binary_iter hw' i f.
Proof. intros E. unfold binary_iter, binaryChanged. now rewrite E. Qed.

Lemma counter_iter_ext hw hw' i f :
  counterLevel hw i = counterLevel hw' i → counter_iter hw i f = counter_iter hw' i f.
Proof. intros E. unfold counter_iter, counterChanged. now rewrite E. Qed.

(** X7. A pass depends on the pins only through the bits selected by the
    pin change interrupt masks: two settings of the pins that agree on those
    bits give the same globals, the same returned byte and the same log,
    whatever the globals were. *)
Theorem X7_pass_reads_masked_bits hw hw' s :
  Z.land (PINB hw) PCINTMASK0 = Z.land (PINB hw') PCINTMASK0 →
  Z.land (PINC hw) PCINTMASK1 = Z.land (PINC hw') PCINTMASK1 →
  Z.land (PIND hw) PCINTMASK2 = Z.land (PIND hw') PCINTMASK2 →
  updateValues_run hw s = updateValues_run hw' s ∧
  updateValues hw s = updateValues hw' s.
Proof.
  intros EB EC ED.
  destruct (masked_same_levels hw hw' EB EC ED) as [HB HC].
  assert (E : updateValues_run hw s = updateValues_run hw' s).
  { unfold updateValues_run. cbv zeta.
    rewrite (for_loop_ext (binary_iter hw) (binary_iter hw'))
      by (intros i x Hi; apply binary_iter_ext, HB, Hi).
    apply for_loop_ext. intros i x Hi. apply counter_iter_ext, HC, Hi. }
  split; [exact E|]. unfold updateValues. now rewrite E.
Qed.

(** ** The supply voltage register *)

Lemma lor_shift_byte a b :
  0 ≤ a < 256 → Z.lor a (Z.shiftl b 8) = a + 256 * b.
Proof.
  intros Ha.
  assert (Hland : Z.land a (Z.shiftl b 8) = 0).
  { apply Z.bits_inj'. intros n Hn. rewrite Z.land_spec, Z.bits_0.
    destruct (Z.lt_ge_cases n 8) as [Hlt | Hge].
    - rewrite (Z.shiftl_spec_low b 8 n) by lia. apply andb_false_r.
    - now rewrite (testbit_byte_high a n) by lia. }
  rewrite <- Z.lxor_lor, <- Z.add_nocarry_lxor by exact Hland.
  rewrite Z.shiftl_mul_pow2 by lia. change (2 ^ 8) with 256. lia.
Qed.

Lemma be_value_two q :
  0 ≤ q < 2 ^ 16 →
  be_value [Z.land (Z.shiftr q 8) 255; Z.land q 255] = q.
Proof.
  intros Hq. unfold be_value. cbn [fold_left].
  change 255 with (Z.ones 8). rewrite !Z.land_ones, Z.shiftr_div_pow2 by lia.
  change (2 ^ 8) with 256. change (2 ^ 16) with 65536 in Hq.
  Z.div_mod_to_equations. lia.
Qed.

Lemma updtVoltSupply_value hw s :
  length (dtVoltSupply s) = 2%nat →
  0 ≤ ADCL hw < 256 → 0 ≤ ADCH hw < 256 →
  be_value (dtVoltSupply (updtVoltSupply hw s)) =
  (1126400 / adc_reading hw) mod 2 ^ 16.
Proof.
  intros Hl HL HH. unfold updtVoltSupply, adc_reading, ushort_wrap.
  cbn [dtVoltSupply set_dtVoltSupply].
  rewrite (Z.mod_small (ADCL hw)) by lia.
  rewrite lor_shift_byte by done.
  rewrite (Z.mod_small (ADCL hw + 256 * ADCH hw)) by lia.
  generalize ((1126400 / (ADCL hw + 256 * ADCH hw)) mod 2 ^ 16)
             (Z.mod_pos_bound (1126400 / (ADCL hw + 256 * ADCH hw)) (2 ^ 16)
                ltac:(lia)).
  intros q Hq.
  destruct (dtVoltSupply s) as [|x [|y [|]]]; try discriminate Hl.
  cbn [insert list_insert list_alter]. now apply be_value_two.
Qed.

(** X8. [updtVoltSupply] stores the 16-bit result of 1126400 / reading, most
    significant byte first, where the reading is ADCL + 256 * ADCH.  The
    stored value is the quotient itself exactly for readings of 18 or more;
    for the readings 1 to 17 the quotient does not fit in the 16 bits and a
    smaller value is stored. *)
Theorem X8_volt_supply hw s :
  length (dtVoltSupply s) = 2%nat →
  0 ≤ ADCL hw < 256 → 0 ≤ ADCH hw < 256 → 1 ≤ adc_reading hw →
  be_value (dtVoltSupply (updtVoltSupply hw s)) =
    (1126400 / adc_reading hw) mod 2 ^ 16 ∧
  (be_value (dtVoltSupply (updtVoltSupply hw s)) = 1126400 / adc_reading hw
   ↔ 18 ≤ adc_reading hw).
Proof.
  intros Hl HL HH Hr. rewrite updtVoltSupply_value by done.
  split; [reflexivity|].
  generalize dependent (adc_reading hw). intros r Hr.
  change (2 ^ 16) with 65536.
  pose proof (Z.mod_pos_bound (1126400 / r) 65536 ltac:(lia)) as Hm.
  split.
  - intros E. destruct (Z.lt_ge_cases r 18) as [Hlt | Hge]; [exfalso|exact Hge].
    assert (65536 ≤ 1126400 / r) by (apply Z.div_le_lower_bound; lia).
    lia.
  - intros Hge. apply Z.mod_small. split.
    + apply Z.div_pos; lia.
    + apply Z.div_lt_upper_bound; lia.
Qed.

(** ** The state between turns of [loop] *)

Lemma turn_state (irq : bool) hw s :
  (loop irq hw s).1 =
  if pcIRQ (if irq then PCINT_vect s else s)
  then set_pcIRQ false
         (published (updateValues hw (if irq then PCINT_vect s else s)).2
                    (updateValues hw (if irq then PCINT_vect s else s)).1)
  else updtBinInputs (updtCounters (if irq then PCINT_vect s else s)).
Proof.
  unfold loop, published.
  generalize (if irq then PCINT_vect s else s). intros s0.
  destruct (pcIRQ s0); [|reflexivity].
  destruct (updateValues hw s0) as [s1 r]. cbn [fst snd].
  destruct (r =? 2); [reflexivity|]. destruct (r =? 1); reflexivity.
Qed.

Lemma setup_state hw s :
  (setup hw s).1 =
  updtCounters (updtBinInputs (updateValues hw (updtVoltSupply hw s)).1).
Proof.
  unfold setup. cbn [getData updateData regValue].
  generalize (updtVoltSupply hw s). intros s0.
  destruct (updateValues hw s0) as [s1 r]. reflexivity.
Qed.

Lemma updtCounters_eq s :
  length (dtCounters s) = 16%nat →
  updtCounters s = set_dtCounters (counter_bytes s) s.
Proof.
  intros Hl. unfold updtCounters, counter_bytes, be32.
  destruct s as [irq lo hi lb c lc dv db dc]. cbn [dtCounters] in Hl.
  do 16 (destruct dc as [|? dc]; [discriminate Hl|]).
  destruct dc; [|discriminate Hl].
  reflexivity.
Qed.

Lemma updtBinInputs_eq s :
  length (dtBinInputs s) = 2%nat →
  updtBinInputs s = set_dtBinInputs (binary_bytes s) s.
Proof.
  intros Hl. unfold updtBinInputs.
  destruct (dtBinInputs s) as [|a [|b [|]]]; try discriminate Hl. reflexivity.
Qed.

Lemma pack_ext (f g : nat → Z) n :
  (∀ i, (i < n)%nat → f i = g i) → pack f n = pack g n.
Proof.
  intros H. induction n as [|n IH]; [reflexivity|].
  rewrite !pack_S, IH by (intros; apply H; lia). now rewrite (H n) by lia.
Qed.

Lemma sampled_known hw s : known (sampled hw s).
Proof.
  unfold known. cbn [sampled lastStateBinary lastStateCount].
  split; apply Forall_fmap, Forall_forall; intros i _; cbn.
  - apply binaryLevel_cases.
  - apply counterLevel_cases.
Qed.

Lemma sampled_packed hw s :
  stateLowByte (sampled hw s) = pack (λ i, lastStateBinary (sampled hw s) !!! i) 8 ∧
  stateHighByte (sampled hw s) = pack (λ i, lastStateCount (sampled hw s) !!! i) 4.
Proof.
  cbn [sampled stateLowByte stateHighByte lastStateBinary lastStateCount].
  split; apply pack_ext; intros i Hi; now rewrite fmap_seq_lookup.
Qed.

Lemma settled_set s db dc :
  wf s → known s →
  stateLowByte s = pack (λ i, lastStateBinary s !!! i) 8 →
  stateHighByte s = pack (λ i, lastStateCount s !!! i) 4 →
  db = binary_bytes s → dc = counter_bytes s →
  settled (set_dtBinInputs db (set_dtCounters dc s)).
Proof.
  intros [W1 W2 W3 W4 W5 W6] [K1 K2] PL PH -> ->.
  destruct s as [irq lo hi lb c lc dv db dc].
  unfold settled, known, synced, binary_bytes, counter_bytes, be32 in *.
  fields. split; [|split; [split|]]; try assumption.
  - constructor; fields; (assumption || reflexivity).
  - repeat split; assumption.
Qed.

Lemma settled_published r s :
  wf s → known s →
  stateLowByte s = pack (λ i, lastStateBinary s !!! i) 8 →
  stateHighByte s = pack (λ i, lastStateCount s !!! i) 4 →
  (r = 2 ∨ dtCounters s = counter_bytes s) →
  (r = 2 ∨ r = 1 ∨ dtBinInputs s = binary_bytes s) →
  settled (published r s).
Proof.
  intros W K PL PH HC HB. unfold published.
  destruct (Z.eqb_spec r 2) as [-> | N2].
  - rewrite updtCounters_eq by apply W.
    rewrite updtBinInputs_eq by apply W.
    now apply settled_set.
  - destruct HC as [? | HC]; [done|].
    destruct (Z.eqb_spec r 1) as [-> | N1].
    + rewrite updtBinInputs_eq by apply W.
      replace s with (set_dtCounters (dtCounters s) s) at 2 by (now destruct s).
      apply settled_set; try done.
    + destruct HB as [? | [? | HB]]; done.
Qed.

Lemma settled_set_pcIRQ b s : settled s → settled (set_pcIRQ b s).
Proof.
  intros ([W1 W2 W3 W4 W5 W6] & K & S). split; [|split]; [constructor| |];
    assumption.
Qed.

Lemma counter_bytes_ext s s' : counter s = counter s' → counter_bytes s = counter_bytes s'.
Proof. unfold counter_bytes. now intros ->. Qed.

Lemma classify_cases s hw : classify s hw = 0 ∨ classify s hw = 1 ∨ classify s hw = 2.
Proof.
  unfold classify.
  destruct (existsb (counted s hw) _); [auto|].
  destruct (existsb (binaryChanged s hw) _ || existsb (counterChanged s hw) _); auto.
Qed.

(** After a pass and the transmissions its returned byte asks for, the
    registers agree with the globals again. *)
Lemma pass_published_settled hw s :
  settled s → settled (published (updateValues hw s).2 (updateValues hw s).1).
Proof.
  intros (W & K & PL & PH & SB & SC).
  rewrite updateValues_eq by done. cbn [fst snd].
  destruct (sampled_packed hw s) as [PL' PH'].
  apply settled_published;
    [now apply sampled_wf | apply sampled_known | exact PL' | exact PH' | |].
  - destruct (Z.eq_dec (classify s hw) 2) as [E | N]; [now left | right].
    rewrite (counter_bytes_ext (sampled hw s) s)
      by (apply counters_kept; [done | now apply classify_not_2]).
    exact SC.
  - destruct (classify_cases s hw) as [E | [E | E]]; [|auto..].
    right. right.
    destruct (classify_0 s hw E) as [Hb Hc].
    change (dtBinInputs (sampled hw s)) with (dtBinInputs s). rewrite SB.
    unfold binary_bytes. cbn [sampled stateHighByte stateLowByte].
    rewrite PL, PH. f_equal; [|f_equal]; apply pack_ext; intros i Hi.
    + specialize (Hc i Hi). unfold counterChanged in Hc.
      now apply negb_false_iff, Z.eqb_eq in Hc.
    + specialize (Hb i Hi). unfold binaryChanged in Hb.
      now apply negb_false_iff, Z.eqb_eq in Hb.
Qed.

Lemma updtCounters_pcIRQ s : pcIRQ (updtCounters s) = pcIRQ s.
Proof. reflexivity. Qed.

Lemma published_2_pcIRQ s : pcIRQ (updtBinInputs (updtCounters s)) = pcIRQ s.
Proof.
  generalize (updtCounters_pcIRQ s). generalize (updtCounters s).
  intros x E. rewrite <- E. reflexivity.
Qed.

Lemma loop_steady (irq : bool) hw s : steady s → steady (loop irq hw s).1.
Proof.
  intros [S F]. rewrite turn_state. destruct irq.
  - pose proof (settled_set_pcIRQ true s S) as S0.
    change (set_pcIRQ true s) with (PCINT_vect s) in S0.
    assert (F0 : pcIRQ (PCINT_vect s) = true) by reflexivity.
    revert S0 F0. generalize (PCINT_vect s). intros s0 S0 F0. rewrite F0.
    split; [|reflexivity].
    apply settled_set_pcIRQ, pass_published_settled, S0.
  - rewrite F. split; [|now rewrite published_2_pcIRQ].
    destruct S as (W & K & PL & PH & SB & SC).
    change (updtBinInputs (updtCounters s)) with (published 2 s).
    apply settled_published; auto.
Qed.

Lemma settled_setup_order s :
  wf s → known s →
  stateLowByte s = pack (λ i, lastStateBinary s !!! i) 8 →
  stateHighByte s = pack (λ i, lastStateCount s !!! i) 4 →
  settled (updtCounters (updtBinInputs s)).
Proof.
  intros W K PL PH.
  rewrite updtBinInputs_eq by apply W.
  rewrite updtCounters_eq by apply W.
  replace (set_dtCounters (counter_bytes (set_dtBinInputs (binary_bytes s) s))
             (set_dtBinInputs (binary_bytes s) s))
    with (set_dtBinInputs (binary_bytes s) (set_dtCounters (counter_bytes s) s))
    by (now destruct s).
  now apply settled_set.
Qed.

Lemma setup_steady hw : steady (setup hw init).1.
Proof.
  rewrite setup_state.
  pose proof (updtVoltSupply_wf hw init init_wf) as W0.
  assert (F0 : pcIRQ (updtVoltSupply hw init) = false) by reflexivity.
  revert W0 F0. generalize (updtVoltSupply hw init). intros s0 W0 F0.
  rewrite updateValues_eq by done. cbn [fst].
  destruct (sampled_packed hw s0) as [PL PH].
  split.
  - apply settled_setup_order;
      [now apply sampled_wf | apply sampled_known | exact PL | exact PH].
  - rewrite updtCounters_pcIRQ. exact F0.
Qed.

Lemma turn_pair (irq : bool) hw s : turn (irq, hw) s = (loop irq hw s).1.
Proof. reflexivity. Qed.

Lemma iterate_steady turns s : steady s → steady (iterate turn turns s).
Proof.
  revert s. induction turns as [|[irq hw] turns IH]; intros s Hs; [exact Hs|].
  rewrite iterate_cons. apply IH. rewrite turn_pair. now apply loop_steady.
Qed.

Lemma boot_steady hw0 turns : steady (boot hw0 turns).
Proof. unfold boot. apply iterate_steady, setup_steady. Qed.

(** X9. After [setup] and any number of turns of [loop], woken either way
    and with any pins, the arrays have the sizes of their initializers, the
    counters are 32-bit values, and every stored level is 0 or 1: the
    initial -1 does not survive [setup]. *)
Theorem X9_reachable_well_formed hw0 turns :
  wf (boot hw0 turns) ∧ known (boot hw0 turns).
Proof.
  destruct (boot_steady hw0 turns) as [(W & K & _) _]. split; assumption.
Qed.

(** X10. After [setup] and any number of turns of [loop] the two packed
    bytes are the stored levels packed, the binary input register holds the
    two packed bytes and the counter register holds the counters: the turns
    that transmit nothing, or the binary states only, leave no register out
    of date. *)
Theorem X10_registers_in_sync hw0 turns : synced (boot hw0 turns).
Proof. destruct (boot_steady hw0 turns) as [(_ & _ & S) _]. exact S. Qed.

(** X11. Every turn of [loop] ends with the interrupt flag clear, whatever
    the globals were when it started. *)
Theorem X11_flag_consumed (irq : bool) hw s : pcIRQ (loop irq hw s).1 = false.
Proof.
  rewrite turn_state.
  destruct (pcIRQ (if irq then PCINT_vect s else s)) eqn:E; [reflexivity|].
  now rewrite published_2_pcIRQ.
Qed.

Lemma settled_fixed s :
  settled s → set_dtBinInputs (binary_bytes s) (set_dtCounters (counter_bytes s) s) = s.
Proof.
  intros (_ & _ & _ & _ & SB & SC). destruct s as [irq lo hi lb c lc dv db dc].
  unfold binary_bytes, counter_bytes in *. fields. now rewrite <- SB, <- SC.
Qed.

Lemma timer_turn_state s :
  settled s → updtBinInputs (updtCounters s) = s.
Proof.
  intros S. pose proof S as (W & _).
  rewrite updtCounters_eq by apply W.
  rewrite updtBinInputs_eq by apply W.
  change (binary_bytes (set_dtCounters (counter_bytes s) s)) with (binary_bytes s).
  now apply settled_fixed.
Qed.

Lemma timer_turn_trace hw s :
  pcIRQ s = false →
  (loop false hw s).2 =
  [Sent REGI_COUNTERS (Some (dtCounters (updtCounters s)));
   Sent REGI_BININPUTS (Some (dtBinInputs (updtBinInputs (updtCounters s))))].
Proof. intros F. unfold loop. rewrite F. reflexivity. Qed.

(** X12. Between turns, a turn of [loop] woken by the timer alone changes
    nothing: it transmits the counter register and the binary input register
    as they already are and leaves every global as it was. *)
Theorem X12_timer_turn_retransmits hw s :
  steady s →
  loop false hw s =
  (s, [Sent REGI_COUNTERS (Some (dtCounters s));
       Sent REGI_BININPUTS (Some (dtBinInputs s))]).
Proof.
  intros [S F].
  rewrite (surjective_pairing (loop false hw s)).
  rewrite turn_state, timer_turn_trace by done. rewrite F.
  pose proof (timer_turn_state s S) as E.
  assert (E1 : dtCounters (updtCounters s) = dtCounters s).
  { destruct S as (W & _ & _ & _ & _ & SC).
    rewrite updtCounters_eq by apply W. cbn [dtCounters set_dtCounters].
    now rewrite SC. }
  rewrite E1. now rewrite E.
Qed.

Lemma state_ext s s' :
  pcIRQ s = pcIRQ s' → stateLowByte s = stateLowByte s' →
  stateHighByte s = stateHighByte s' →
  lastStateBinary s = lastStateBinary s' → counter s = counter s' →
  lastStateCount s = lastStateCount s' → dtVoltSupply s = dtVoltSupply s' →
  dtBinInputs s = dtBinInputs s' → dtCounters s = dtCounters s' → s = s'.
Proof.
  destruct s, s'. cbn. intros. subst. reflexivity.
Qed.

Lemma sampled_same hw s :
  settled s →
  (∀ i, (i < 8)%nat → binaryLevel hw i = lastStateBinary s !!! i) →
  (∀ i, (i < 4)%nat → counterLevel hw i = lastStateCount s !!! i) →
  sampled hw s = s ∧ classify s hw = 0.
Proof.
  intros (W & K & PL & PH & SB & SC) HB HC.
  assert (Hb : ∀ i, (i < 8)%nat → binaryChanged s hw i = false).
  { intros i Hi. unfold binaryChanged. now rewrite HB, Z.eqb_refl. }
  assert (Hc : ∀ i, (i < 4)%nat → counterChanged s hw i = false).
  { intros i Hi. unfold counterChanged. now rewrite HC, Z.eqb_refl. }
  assert (Hk : ∀ i, (i < 4)%nat → counted s hw i = false).
  { intros i Hi. apply counterChanged_counted, Hc, Hi. }
  destruct (levels_kept s hw W Hb Hc) as [E1 E2].
  pose proof (counters_kept s hw W Hk) as E3.
  assert (E4 : stateLowByte (sampled hw s) = stateLowByte s).
  { rewrite PL. cbn [sampled stateLowByte]. now apply pack_ext. }
  assert (E5 : stateHighByte (sampled hw s) = stateHighByte s).
  { rewrite PH. cbn [sampled stateHighByte]. now apply pack_ext. }
  split.
  - apply state_ext; (assumption || reflexivity).
  - unfold classify. change (length counterPin) with 4%nat.
    change (length binaryPin) with 8%nat.
    replace (existsb (counted s hw) (seq 0 4)) with false
      by (symmetry; now apply existsb_seq_false).
    replace (existsb (binaryChanged s hw) (seq 0 8)) with false
      by (symmetry; now apply existsb_seq_false).
    replace (existsb (counterChanged s hw) (seq 0 4)) with false
      by (symmetry; now apply existsb_seq_false).
    reflexivity.
Qed.

Lemma irq_turn_trace_0 hw s :
  (updateValues hw (PCINT_vect s)).2 = 0 → (loop true hw s).2 = [Sampled 0].
Proof.
  unfold loop. change (pcIRQ (PCINT_vect s)) with true. cbv iota.
  destruct (updateValues hw (PCINT_vect s)) as [s1 r]. cbn [snd].
  intros ->. reflexivity.
Qed.

Lemma set_pcIRQ_PCINT_vect s : pcIRQ s = false → set_pcIRQ false (PCINT_vect s) = s.
Proof. destruct s. cbn. now intros ->. Qed.

(** X13. Between turns, a pin change interrupt that finds every line at its
    stored level is harmless: the turn samples, transmits nothing and leaves
    every global as it was, with the interrupt flag clear again. *)
Theorem X13_spurious_interrupt hw s :
  steady s →
  (∀ i, (i < 8)%nat → binaryLevel hw i = lastStateBinary s !!! i) →
  (∀ i, (i < 4)%nat → counterLevel hw i = lastStateCount s !!! i) →
  loop true hw s = (s, [Sampled 0]).
Proof.
  intros [S F] HB HC.
  pose proof (settled_set_pcIRQ true s S) as S0.
  change (set_pcIRQ true s) with (PCINT_vect s) in S0.
  destruct (sampled_same hw (PCINT_vect s) S0 HB HC) as [E1 E2].
  assert (Er : (updateValues hw (PCINT_vect s)).2 = 0)
    by (rewrite updateValues_eq by apply S0; exact E2).
  rewrite (surjective_pairing (loop true hw s)).
  rewrite irq_turn_trace_0 by exact Er.
  rewrite turn_state. change (pcIRQ (PCINT_vect s)) with true. cbv iota.
  rewrite updateValues_eq by apply S0. cbn [fst snd].
  rewrite E1, E2. unfold published. cbn [Z.eqb].
  now rewrite set_pcIRQ_PCINT_vect.
Qed.

(** ** Changes reach the radio *)

Lemma irq_turn_trace hw s s1 r :
  updateValues hw (PCINT_vect s) = (s1, r) →
  (loop true hw s).2 =
  Sampled r ::
  (if r =? 2 then
     [Sent REGI_COUNTERS (Some (dtCounters (updtCounters s1)));
      Sent REGI_BININPUTS (Some (dtBinInputs (updtBinInputs (updtCounters s1))))]
   else if r =? 1 then
     [Sent REGI_BININPUTS (Some (dtBinInputs (updtBinInputs s1)))]
   else []).
Proof.
  intros E. unfold loop. change (pcIRQ (PCINT_vect s)) with true. cbv iota.
  rewrite E. destruct (r =? 2); [reflexivity|]. destruct (r =? 1); reflexivity.
Qed.

Lemma classify_changed s hw :
  (∃ i, (i < 8)%nat ∧ binaryChanged s hw i = true) ∨
  (∃ i, (i < 4)%nat ∧ counterChanged s hw i = true) →
  classify s hw = 1 ∨ classify s hw = 2.
Proof.
  intros H. unfold classify. change (length counterPin) with 4%nat.
  change (length binaryPin) with 8%nat.
  destruct (existsb (counted s hw) (seq 0 4)); [now right|]. left.
  replace (existsb (binaryChanged s hw) (seq 0 8)
           || existsb (counterChanged s hw) (seq 0 4)) with true; [reflexivity|].
  symmetry. apply orb_true_iff.
  destruct H as [H | H]; [left | right]; now apply existsb_seq_true.
Qed.

Lemma classify_counted s hw :
  (∃ i, (i < 4)%nat ∧ counted s hw i = true) → classify s hw = 2.
Proof.
  intros H. unfold classify. change (length counterPin) with 4%nat.
  replace (existsb (counted s hw) (seq 0 4)) with true; [reflexivity|].
  symmetry. now apply existsb_seq_true.
Qed.

(** X14. A turn of [loop] woken by a pin change interrupt transmits what it
    finds changed: if some line reads a level other than its stored level,
    the binary input register is transmitted with the levels just read; if
    some counter line has changed into HIGH, the counter register is
    transmitted with the counters just incremented. *)
Theorem X14_changes_are_transmitted hw s :
  wf s →
  ((∃ i, (i < 8)%nat ∧ binaryLevel hw i ≠ lastStateBinary s !!! i) ∨
   (∃ i, (i < 4)%nat ∧ counterLevel hw i ≠ lastStateCount s !!! i) →
   In (Sent REGI_BININPUTS
         (Some [pack (counterLevel hw) 4; pack (binaryLevel hw) 8]))
      (loop true hw s).2) ∧
  ((∃ i, (i < 4)%nat ∧ counterLevel hw i = HIGH ∧ lastStateCount s !!! i ≠ HIGH) →
   In (Sent REGI_COUNTERS
         (Some (counter_bytes (updateValues hw (PCINT_vect s)).1)))
      (loop true hw s).2).
Proof.
  intros W. pose proof (PCINT_vect_wf s W) as W0.
  rewrite (irq_turn_trace hw s _ _ (updateValues_eq hw (PCINT_vect s) W0)).
  rewrite (updateValues_eq hw (PCINT_vect s) W0). cbn [fst].
  pose proof (sampled_wf hw (PCINT_vect s) W0) as W1.
  pose proof (published_binary (sampled hw (PCINT_vect s)) ltac:(apply W1)) as PB.
  pose proof (published_binary_after_counters (sampled hw (PCINT_vect s))
                ltac:(apply W1)) as PBC.
  pose proof (published_counters (sampled hw (PCINT_vect s)) ltac:(apply W1)) as PC.
  cbn [published_from] in PB, PBC, PC.
  rewrite PB, PBC, PC.
  change (binary_bytes (sampled hw (PCINT_vect s)))
    with [pack (counterLevel hw) 4; pack (binaryLevel hw) 8].
  split.
  - intros H.
    assert (Hc : classify (PCINT_vect s) hw = 1 ∨ classify (PCINT_vect s) hw = 2).
    { apply classify_changed.
      destruct H as [(i & Hi & Hne) | (i & Hi & Hne)]; [left | right];
        exists i; (split; [exact Hi|]).
      - unfold binaryChanged. apply negb_true_iff, Z.eqb_neq.
        intros E. apply Hne. symmetry. exact E.
      - unfold counterChanged. apply negb_true_iff, Z.eqb_neq.
        intros E. apply Hne. symmetry. exact E. }
    destruct Hc as [-> | ->]; cbn [Z.eqb Pos.eqb In]; auto.
  - intros (i & Hi & Hhigh & Hne).
    rewrite classify_counted.
    + cbn [Z.eqb Pos.eqb In]. auto.
    + exists i. split; [exact Hi|]. unfold counted, counterChanged.
      apply andb_true_iff. split.
      * apply negb_true_iff, Z.eqb_neq. intros E. apply Hne.
        rewrite <- Hhigh. exact E.
      * now apply Z.eqb_eq.
Qed.

(** ** The further properties on sample inputs *)

Lemma X2_return_byte_sound_witness :
  wf idle ∧
  counter (updateValues (with_PINB 1 quiet) idle).1 = counter idle.
Proof.
  split; [exact idle_wf|].
  apply (proj1 (X2_return_byte_sound (with_PINB 1 quiet) idle idle_wf)).
  vm_compute. discriminate.
Defined.

Lemma X3_pass_idempotent_witness :
  wf idle ∧
  updateValues (with_PIND 8 quiet) (updateValues (with_PIND 8 quiet) idle).1 =
  ((updateValues (with_PIND 8 quiet) idle).1, 0).
Proof.
  split; [exact idle_wf|].
  exact (X3_pass_idempotent (with_PIND 8 quiet) idle idle_wf).
Defined.

Lemma X5_counter_total_witness :
  wf idle ∧ (0 < 4)%nat ∧
  counter (run_state [with_PIND 8 quiet; with_PIND 8 quiet; quiet; with_PIND 8 quiet]
             idle) !!! 0%nat = 2.
Proof.
  split; [exact idle_wf|]. split; [lia|].
  exact (X5_counter_total 0
           [with_PIND 8 quiet; with_PIND 8 quiet; quiet; with_PIND 8 quiet]
           idle idle_wf ltac:(lia)).
Defined.

(** Bit 2 of port B is no line of the sketch. *)
Lemma X7_pass_reads_masked_bits_witness :
  Z.land (PINB quiet) PCINTMASK0 = Z.land (PINB (with_PINB 4 quiet)) PCINTMASK0 ∧
  Z.land (PINC quiet) PCINTMASK1 = Z.land (PINC (with_PINB 4 quiet)) PCINTMASK1 ∧
  Z.land (PIND quiet) PCINTMASK2 = Z.land (PIND (with_PINB 4 quiet)) PCINTMASK2 ∧
  updateValues quiet idle = updateValues (with_PINB 4 quiet) idle.
Proof.
  assert (EB : Z.land (PINB quiet) PCINTMASK0 =
               Z.land (PINB (with_PINB 4 quiet)) PCINTMASK0) by reflexivity.
  assert (EC : Z.land (PINC quiet) PCINTMASK1 =
               Z.land (PINC (with_PINB 4 quiet)) PCINTMASK1) by reflexivity.
  assert (ED : Z.land (PIND quiet) PCINTMASK2 =
               Z.land (PIND (with_PINB 4 quiet)) PCINTMASK2) by reflexivity.
  split; [exact EB|]. split; [exact EC|]. split; [exact ED|].
  exact (proj2 (X7_pass_reads_masked_bits quiet (with_PINB 4 quiet) idle EB EC ED)).
Defined.

(** A reading of 347 is a supply of 3246 mV. *)
Lemma X8_volt_supply_witness :
  length (dtVoltSupply init) = 2%nat ∧
  0 ≤ ADCL quiet < 256 ∧ 0 ≤ ADCH quiet < 256 ∧ 1 ≤ adc_reading quiet ∧
  be_value (dtVoltSupply (updtVoltSupply quiet init)) = 3246.
Proof.
  assert (HL : 0 ≤ ADCL quiet < 256) by (cbn; lia).
  assert (HH : 0 ≤ ADCH quiet < 256) by (cbn; lia).
  assert (HR : 1 ≤ adc_reading quiet) by (vm_compute; discriminate).
  split; [reflexivity|]. split; [exact HL|]. split; [exact HH|]. split; [exact HR|].
  exact (proj1 (X8_volt_supply quiet init eq_refl HL HH HR)).
Defined.

Lemma idle_steady : steady idle.
Proof. exact (setup_steady quiet). Defined.

Lemma X12_timer_turn_retransmits_witness :
  steady idle ∧
  loop false (with_PINB 1 quiet) idle =
  (idle, [Sent REGI_COUNTERS (Some (dtCounters idle));
          Sent REGI_BININPUTS (Some (dtBinInputs idle))]).
Proof.
  split; [exact idle_steady|].
  exact (X12_timer_turn_retransmits (with_PINB 1 quiet) idle idle_steady).
Defined.

Lemma X13_spurious_interrupt_witness :
  steady idle ∧
  (∀ i, (i < 8)%nat → binaryLevel quiet i = lastStateBinary idle !!! i) ∧
  (∀ i, (i < 4)%nat → counterLevel quiet i = lastStateCount idle !!! i) ∧
  loop true quiet idle = (idle, [Sampled 0]).
Proof.
  assert (HB : ∀ i, (i < 8)%nat → binaryLevel quiet i = lastStateBinary idle !!! i)
    by (intros i Hi; destruct i as [|[|[|[|[|[|[|[|]]]]]]]];
        (reflexivity || lia)).
  assert (HC : ∀ i, (i < 4)%nat → counterLevel quiet i = lastStateCount idle !!! i)
    by (intros i Hi; destruct i as [|[|[|[|]]]]; (reflexivity || lia)).
  split; [exact idle_steady|]. split; [exact HB|]. split; [exact HC|].
  exact (X13_spurious_interrupt quiet idle idle_steady HB HC).
Defined.

Lemma X14_changes_are_transmitted_witness :
  wf idle ∧
  In (Sent REGI_BININPUTS
        (Some [pack (counterLevel (with_PINB 1 quiet)) 4;
               pack (binaryLevel (with_PINB 1 quiet)) 8]))
     (loop true (with_PINB 1 quiet) idle).2.
Proof.
  split; [exact idle_wf|].
  apply (proj1 (X14_changes_are_transmitted (with_PINB 1 quiet) idle idle_wf)).
  left. exists 0%nat. split; [lia|]. vm_compute. discriminate.
Defined.
